(** * stfinv/utils/plotting.py: layout and visual encoding of the waveform figure

    A shallow embedding of [plot_waveforms], [plot_map], [add_ortho] and
    [_dict_mean].  What matplotlib, cartopy and ObsPy draw is recorded as
    data (lines, scatter layers, axis limits); what Python raises is an
    explicit exception value.

    Numbers.  Samples, metrics and coordinates are rationals ([Q]); the
    rounding of IEEE doubles is not modelled.  What numpy does where a real
    number does not exist is: a division by zero gives [inf] or [nan] and the
    mean of an empty array gives [nan], see [npfloat]. *)

From Stdlib Require Import ZArith QArith Qround Qabs Lia Lqa.
From stdpp Require Import gmap strings list sorting pretty.

Local Open Scope Z_scope.

(** ** Python exceptions and results *)

Inductive py_exception : Type :=
| KeyError (key : string)
| IndexError
| ValueError
| UnboundLocalError (name : string).

Definition exn_class_name (e : py_exception) : string :=
  match e with
  | KeyError _ => "KeyError"
  | IndexError => "IndexError"
  | ValueError => "ValueError"
  | UnboundLocalError _ => "UnboundLocalError"
  end.

Inductive result (A : Type) : Type :=
| Ok (a : A)
| Raise (e : py_exception).
Arguments Ok {A} a.
Arguments Raise {A} e.

#[global] Instance result_ret : MRet result := fun _ a => Ok a.
#[global] Instance result_bind : MBind result := fun _ _ k r =>
  match r with
  | Ok a => k a
  | Raise e => Raise e
  end.

(** [d[key]] on a dict with string keys. *)
Definition getitem (d : gmap string Q) (key : string) : result Q :=
  match d !! key with
  | Some v => Ok v
  | None => Raise (KeyError key)
  end.

(** [l[0]] and [l[-1]] on a sequence. *)
Definition first_item {A} (l : list A) : result A :=
  match l with
  | x :: _ => Ok x
  | [] => Raise IndexError
  end.

Definition last_item {A} (l : list A) : result A :=
  match last l with
  | Some x => Ok x
  | None => Raise IndexError
  end.

(** ** numpy values *)

(** A double as numpy hands it back: a number, or what a division by zero or
    an empty mean leaves. *)
Inductive npfloat : Type :=
| Num (q : Q)
| PInf
| NInf
| NaN.

Definition Qltb (x y : Q) : bool := negb (Qle_bool y x).
Definition Qeqb (x y : Q) : bool := Qeq_bool x y.

(** [x / y] on doubles ([y] is never a negative zero here: it is a maximum of
    absolute values, a duration or a length). *)
Definition np_div (x y : Q) : npfloat :=
  if Qeqb y 0 then
    if Qeqb x 0 then NaN else if Qltb 0 x then PInf else NInf
  else Num (x / y).

(** [a + q] and [a * q] with [q] finite. *)
Definition np_addq (a : npfloat) (q : Q) : npfloat :=
  match a with
  | Num x => Num (x + q)
  | other => other
  end.

Definition np_mulq (a : npfloat) (q : Q) : npfloat :=
  match a with
  | Num x => Num (x * q)
  | NaN => NaN
  | PInf => if Qeqb q 0 then NaN else if Qltb 0 q then PInf else NInf
  | NInf => if Qeqb q 0 then NaN else if Qltb 0 q then NInf else PInf
  end.

(** [q + a] with [q] finite on the left. *)
Definition np_qadd (q : Q) (a : npfloat) : npfloat :=
  match a with
  | Num x => Num (q + x)
  | other => other
  end.

(** [int(x)]: truncation towards zero. *)
Definition py_int (x : Q) : Z :=
  if Qltb x 0 then Qceiling x else Qfloor x.

(** [int(np.sqrt(n))] for a count [n]: the integer part of the square root
    (the double nearest to the root has that integer part for every count
    below 2^52). *)
Definition int_sqrt (n : Z) : Z := Z.sqrt n.

(** [builtins.max] over an iterable of numbers: the first maximal item is
    kept; the empty iterable raises [ValueError]. *)
Fixpoint max_from (m : Q) (l : list Q) : Q :=
  match l with
  | [] => m
  | x :: l' => max_from (if Qltb m x then x else m) l'
  end.

Definition py_max (l : list Q) : result Q :=
  match l with
  | [] => Raise ValueError
  | x :: l' => Ok (max_from x l')
  end.

Definition np_abs (l : list Q) : list Q := map Qabs l.

(** [np.arange(0, n)] and [np.linspace(0, stop, num=n)]. *)
Definition np_arange (n : nat) : list Q := map (fun i : nat => inject_Z (Z.of_nat i)) (seq 0 n).

Definition np_linspace0 (stop : Q) (n : nat) : list Q :=
  match n with
  | O => []
  | S O => [0%Q]
  | S m => map (fun i : nat => (inject_Z (Z.of_nat i) * (stop / inject_Z (Z.of_nat m)))%Q) (seq 0 n)
  end.

Definition Qsum (l : list Q) : Q := foldr Qplus 0%Q l.

(** [np.mean(x)]: the sum over the count; [nan] (and a warning) on the empty
    array. *)
Definition np_mean (x : list Q) : npfloat :=
  match x with
  | [] => NaN
  | _ => Num (Qsum x / inject_Z (Z.of_nat (length x)))
  end.

(** [np.convolve(a, v, mode='full')]: sample [k] of the output is the sum of
    [a[j] * v[k - j]] over the indices where both exist; the output has
    [len(a) + len(v) - 1] samples.  numpy swaps the arguments when [v] is the
    longer one and refuses an empty one. *)
Definition nthQ (l : list Q) (i : nat) : Q := nth i l 0%Q.

Definition conv_sample (a v : list Q) (k : nat) : Q :=
  Qsum (map (fun j : nat => (nthQ a j * nthQ v (k - j))%Q) (seq 0 (S k))).

Definition conv_full (a v : list Q) : list Q :=
  map (conv_sample a v) (seq 0 (length a + length v - 1)).

Definition np_convolve (a v : list Q) : result (list Q) :=
  let '(a, v) := if (length a <? length v)%nat then (v, a) else (a, v) in
  match a, v with
  | [], _ => Raise ValueError
  | _, [] => Raise ValueError
  | _, _ => Ok (conv_full a v)
  end.

(** ** ObsPy traces and streams *)

(** The header fields the module reads: [stats.station], [stats.location],
    [stats['azi']], [stats.delta] and the SAC coordinates [stats.sac.stla],
    [stats.sac.stlo]. *)
Record Stats : Type := {
  station : string;
  location : string;
  azi : Q;
  delta : Q;
  stla : Q;
  stlo : Q
}.

Record Trace : Type := {
  stats : Stats;
  data : list Q
}.

(** ObsPy keeps [stats.npts] equal to [len(data)]. *)
Definition npts (tr : Trace) : nat := length (data tr).

(** [tr.times()]: the sample times relative to the first sample. *)
Definition times (tr : Trace) : list Q :=
  map (fun t => (t * delta (stats tr))%Q) (np_arange (npts tr)).

(** ['%s.%s' % (tr.stats.station, tr.stats.location)] *)
Definition station_code (tr : Trace) : string :=
  station (stats tr) +:+ "." +:+ location (stats tr).

(** [Stream.select(station=name)]: the traces of that station, in stream
    order (station names are upper-case codes without wildcard characters,
    so that ObsPy's pattern match is equality). *)
Definition select_station (st : list Trace) (name : string) : list Trace :=
  filter (fun tr => station (stats tr) = name) st.

(** [list.sort(key=lambda x: x.stats['azi'])], which [Stream.sort] runs on
    its trace list: ascending and stable. *)
Fixpoint insert_by_azi (tr : Trace) (l : list Trace) : list Trace :=
  match l with
  | [] => [tr]
  | x :: l' =>
      if Qle_bool (azi (stats tr)) (azi (stats x)) then tr :: x :: l'
      else x :: insert_by_azi tr l'
  end.

Definition sort_by_azi (l : list Trace) : list Trace := foldr insert_by_azi [] l.

(** ** The object store

    A [Stream] is a mutable object: [Stream.sort] reorders its trace list in
    place.  A stream reference is a location of the store; [Stream.copy] is a
    deep copy and allocates a new object. *)
Abbreviation loc := positive.
Abbreviation heap := (gmap loc (list Trace)).

Definition M (A : Type) : Type := heap → result A * heap.

#[global] Instance M_ret : MRet M := fun _ a h => (Ok a, h).
#[global] Instance M_bind : MBind M := fun _ _ k m h =>
  match m h with
  | (Ok a, h') => k a h'
  | (Raise e, h') => (Raise e, h')
  end.

Definition lift_result {A} (r : result A) : M A := fun h => (r, h).

(** Iterating over a stream, and [len(stream)].  References handed in by the
    caller are allocated. *)
Definition stream_traces (s : loc) : M (list Trace) := fun h => (Ok (h !!! s), h).
Definition stream_len (s : loc) : M nat := fun h => (Ok (length (h !!! s)), h).

(** [st.copy()] *)
Definition stream_copy (s : loc) : M loc := fun h =>
  let l := fresh (dom h) in (Ok l, <[l := h !!! s]> h).

(** [st.sort(keys=['azi'])] *)
Definition stream_sort (s : loc) : M unit := fun h =>
  (Ok (), <[s := sort_by_azi (h !!! s)]> h).

(** ** What is drawn *)

(** ['-'] and ['dotted'] *)
Inductive LineStyle : Type := Solid | Dotted.

(** One [ax.plot] call. *)
Record Line2D : Type := {
  xdata : list npfloat;
  ydata : list npfloat;
  color : string;
  linestyle : LineStyle;
  linewidth : Q
}.

(** One [ax.text] call of the waveform axis: the anchor and the values that
    are formatted into the label. *)
Record Annotation : Type := {
  text_x : Q;
  text_y : Q;
  text_station : string;
  text_CC : Q;
  text_dA : Q;
  text_dT : Q
}.

(** What one pass of the station loop draws and the locals it sets. *)
Record StationPlot : Type := {
  sp_trace : Trace;
  sp_irow : Z;
  sp_icol : Z;
  sp_normfac : Q;
  sp_xoffset : Q;
  sp_yoffset : Q;
  sp_ls : LineStyle;
  l_d : Line2D;
  l_g : Line2D;
  l_s : Line2D;
  sp_text : Annotation;
  sp_arrival : Line2D
}.

(** One [ax.scatter] call of the map. *)
Record Scatter : Type := {
  sc_lons : list Q;
  sc_lats : list Q;
  sc_c : list Q;
  sc_marker : string;
  sc_vmin : Q;
  sc_vmax : Q
}.

(** The map axis: the scatter layers in drawing order, the layer the
    colorbar is attached to, and the star at the projection centre. *)
Record OrthoAxes : Type := {
  oa_central_longitude : Q;
  oa_central_latitude : Q;
  oa_scatters : list Scatter;
  oa_colorbar : Scatter;
  oa_star : Q * Q
}.

Record MomentTensor : Type := {
  m_rr : Q; m_tt : Q; m_pp : Q; m_rt : Q; m_rp : Q; m_tp : Q
}.

Record Origin : Type := {
  longitude : Q;
  latitude : Q
}.

Record WaveformFigure : Type := {
  wf_stations : list StationPlot;
  wf_legend : Line2D * Line2D * Line2D;
  wf_xlim : Q * Q;
  wf_ylim : Q * Q;
  wf_title : option (Z * Z * Q);
  wf_stf : Line2D;
  wf_stf_hline : npfloat * npfloat;
  wf_beach : list Q;
  wf_map : OrthoAxes
}.

(** ** add_ortho *)

(** The six lists the partition loop appends to. *)
Record Marks : Type := {
  lats_mark1 : list Q;
  lons_mark1 : list Q;
  colors_mark1 : list Q;
  lats_mark2 : list Q;
  lons_mark2 : list Q;
  colors_mark2 : list Q
}.

Definition no_marks : Marks :=
  {| lats_mark1 := []; lons_mark1 := []; colors_mark1 := [];
     lats_mark2 := []; lons_mark2 := []; colors_mark2 := [] |}.

(** [zip(lons, lats, colors)] stops at the shortest argument. *)
Fixpoint zip3 (lons lats colors : list Q) : list (Q * Q * Q) :=
  match lons, lats, colors with
  | lon :: lons', lat :: lats', c :: colors' => (lon, lat, c) :: zip3 lons' lats' colors'
  | _, _, _ => []
  end.

(** The body of [for lon, lat, color in zip(lons, lats, colors)]. *)
Definition mark_step (CClim : Q) (m : Marks) (s : Q * Q * Q) : Marks :=
  let '(lon, lat, c) := s in
  if Qltb CClim c then
    {| lats_mark1 := lats_mark1 m ++ [lat];
       lons_mark1 := lons_mark1 m ++ [lon];
       colors_mark1 := colors_mark1 m ++ [c];
       lats_mark2 := lats_mark2 m;
       lons_mark2 := lons_mark2 m;
       colors_mark2 := colors_mark2 m |}
  else
    {| lats_mark1 := lats_mark1 m;
       lons_mark1 := lons_mark1 m;
       colors_mark1 := colors_mark1 m;
       lats_mark2 := lats_mark2 m ++ [lat];
       lons_mark2 := lons_mark2 m ++ [lon];
       colors_mark2 := colors_mark2 m ++ [c] |}.

Definition mark_loop (CClim : Q) (lons lats colors : list Q) : Marks :=
  fold_left (mark_step CClim) (zip3 lons lats colors) no_marks.

(** [marker[i]] *)
Definition marker_item (marker : list string) (i : nat) : result string :=
  match marker !! i with
  | Some s => Ok s
  | None => Raise IndexError
  end.

(** [add_ortho] as [plot_map] calls it ([text=None]: no labels are drawn).
    A group that is empty is not drawn; the colorbar hangs on the layer drawn
    last, and with no layer at all the name [scatter] is unbound. *)
Definition add_ortho (lats lons colors : list Q) (CClim : Q)
    (central_longitude central_latitude : Q) (marker : list string)
    : result OrthoAxes :=
  let m := mark_loop CClim lons lats colors in
  scatter1 ←
    (if (0 <? length (lons_mark1 m))%nat then
       mk ← marker_item marker 0;
       Ok (Some {| sc_lons := lons_mark1 m; sc_lats := lats_mark1 m;
                   sc_c := colors_mark1 m; sc_marker := mk;
                   sc_vmin := CClim; sc_vmax := 1 |})
     else Ok None);
  scatter2 ←
    (if (0 <? length (lons_mark2 m))%nat then
       mk ← marker_item marker 1;
       Ok (Some {| sc_lons := lons_mark2 m; sc_lats := lats_mark2 m;
                   sc_c := colors_mark2 m; sc_marker := mk;
                   sc_vmin := CClim; sc_vmax := 1 |})
     else Ok None);
  scatter ←
    match scatter2, scatter1 with
    | Some s, _ => Ok s
    | None, Some s => Ok s
    | None, None => Raise (UnboundLocalError "scatter")
    end;
  Ok {| oa_central_longitude := central_longitude;
        oa_central_latitude := central_latitude;
        oa_scatters := option_list scatter1 ++ option_list scatter2;
        oa_colorbar := scatter;
        oa_star := (central_longitude, central_latitude) |}.

(** ** plot_map *)

(** The loop that fills [lats], [lons], [c] (and [names]). *)
Fixpoint map_columns (st_synth : list Trace) (values : gmap string Q)
    : result (list Q * list Q * list Q) :=
  match st_synth with
  | [] => Ok ([], [], [])
  | tr :: rest =>
      v ← getitem values (station_code tr);
      '(lats, lons, c) ← map_columns rest values;
      Ok (stla (stats tr) :: lats, stlo (stats tr) :: lons, v :: c)
  end.

Definition plot_map (st_synth : list Trace) (values : gmap string Q)
    (central_longitude central_latitude CClim : Q) : result OrthoAxes :=
  '(lats, lons, c) ← map_columns st_synth values;
  add_ortho lats lons c CClim central_longitude central_latitude ["o"; "d"].

(** ** _dict_mean *)

(** [x[i] = value] on a numpy array: an index out of range raises. *)
Definition setitem (x : list Q) (i : nat) (value : Q) : result (list Q) :=
  if (i <? length x)%nat then Ok (<[i := value]> x) else Raise IndexError.

(** The loop [for key, value in dictionary.items(): x[i] = value; i += 1],
    from the counter [i] on. *)
Fixpoint fill_values (items : list (string * Q)) (i : nat) (x : list Q)
    : result (list Q) :=
  match items with
  | [] => Ok x
  | (_, value) :: rest =>
      x' ← setitem x i value;
      fill_values rest (S i) x'
  end.

(** [np.zeros(len(dictionary))], the fill loop, [np.mean(x)].  The items are
    visited in the order [map_to_list] lists them. *)
Definition _dict_mean (dictionary : gmap string Q) : result npfloat :=
  let x := replicate (size dictionary) 0%Q in
  x' ← fill_values (map_to_list dictionary) 0 x;
  Ok (np_mean x').

(** ** plot_waveforms *)

(** [nrows] and [ncols] from [nplots = len(st_data)].  The [/] is Python 3's
    true division: [ncols] is a float. *)
Definition grid_nrows (nplots : Z) : Z := int_sqrt nplots + 1.
Definition grid_ncols (nplots : Z) : Q :=
  (inject_Z nplots / inject_Z (grid_nrows nplots) + 1)%Q.

(** [xvals = np.linspace(0, 0.8, num=len(yvals))] and
    [ax.plot(xvals + xoffset, yvals + yoffset, ...)]. *)
Definition offset_curve (yvals : list npfloat) (xoffset yoffset : Q)
    (c : string) (ls : LineStyle) (lw : Q) : Line2D :=
  {| xdata := map (fun x => Num (x + xoffset)) (np_linspace0 (4 # 5) (length yvals));
     ydata := map (fun y => np_addq y yoffset) yvals;
     color := c;
     linestyle := ls;
     linewidth := lw |}.

(** [array / normfac] *)
Definition np_div_all (l : list Q) (normfac : Q) : list npfloat :=
  map (fun y => np_div y normfac) l.

Section StationLoop.
Variable st_synth : list Trace.
Variables arr_times CC : gmap string Q.
Variable CClim : Q.
Variables dA dT : gmap string Q.
Variable stf : list Q.
Variable nrows : Z.

(** The body of [for tr in st_data_plot], at a given [iplot]. *)
Definition plot_station (iplot : Z) (tr : Trace) : result StationPlot :=
  let irow := iplot `mod` nrows in
  let icol := py_int (inject_Z iplot / inject_Z nrows) in
  normfac ← py_max (np_abs (data tr));
  let yoffset := (inject_Z irow * (3 # 2))%Q in
  let xoffset := inject_Z icol in
  let code := station_code tr in
  cc ← getitem CC code;
  let ls := if Qltb CClim cc then Solid else Dotted in
  let line_d := offset_curve (np_div_all (data tr) normfac) xoffset yoffset "k" ls 2 in
  g ← first_item (select_station st_synth (station (stats tr)));
  let line_g := offset_curve (np_div_all (data g) normfac) xoffset yoffset "grey" ls 1 in
  g' ← first_item (select_station st_synth (station (stats tr)));
  conv ← np_convolve (data g') stf;
  let line_s :=
    offset_curve (np_div_all (take (npts tr) conv) normfac) xoffset yoffset "r" ls (3 # 2) in
  cc' ← getitem CC code;
  da ← getitem dA code;
  dt ← getitem dT code;
  let txt := {| text_x := xoffset; text_y := (yoffset + (1 # 5))%Q;
                text_station := station (stats tr);
                text_CC := cc'; text_dA := da; text_dT := dt |} in
  arr ← getitem arr_times code;
  tlast ← last_item (times tr);
  let x := np_addq (np_mulq (np_div arr tlast) (4 # 5)) xoffset in
  Ok {| sp_trace := tr; sp_irow := irow; sp_icol := icol;
        sp_normfac := normfac; sp_xoffset := xoffset; sp_yoffset := yoffset;
        sp_ls := ls; l_d := line_d; l_g := line_g; l_s := line_s;
        sp_text := txt;
        sp_arrival := {| xdata := [x; x];
                         ydata := [Num (yoffset + (1 # 2)); Num (yoffset - (1 # 2))];
                         color := "b"; linestyle := Solid; linewidth := 3 # 2 |} |}.

(** The loop, from [iplot] on; an exception ends it. *)
Fixpoint plot_stations (iplot : Z) (trs : list Trace) : result (list StationPlot) :=
  match trs with
  | [] => Ok []
  | tr :: rest =>
      sp ← plot_station iplot tr;
      sps ← plot_stations (iplot + 1) rest;
      Ok (sp :: sps)
  end.
End StationLoop.

(** Everything after [st_data_plot.sort(keys=['azi'])]: [trs] are the traces
    of the sorted copy, [st_synth] those of the synthetic stream.  After the
    loop the locals [l_s], [l_d], [l_g] and [tr] are those of its last pass;
    with no pass they are unbound.  The STF line has matplotlib's default
    colour and width. *)
Definition render_waveforms (nplots : Z) (trs st_synth : list Trace)
    (arr_times CC : gmap string Q) (CClim : Q) (dA dT : gmap string Q)
    (stf : list Q) (depth : Z) (origin : Origin) (tensor : MomentTensor)
    (iteration : Z) (misfit : Q) : result WaveformFigure :=
  let nrows := grid_nrows nplots in
  let ncols := grid_ncols nplots in
  sps ← plot_stations st_synth arr_times CC CClim dA dT stf nrows 0 trs;
  lastp ← match last sps with
           | Some p => Ok p
           | None => Raise (UnboundLocalError "l_s")
           end;
  let tr := sp_trace lastp in
  let yvals := stf in
  mean_dT ← _dict_mean dT;
  let xoffset := np_mulq mean_dT (delta (stats tr)) in
  let xvals := map (fun t => np_qadd (delta (stats tr) * t) xoffset) (np_arange (length yvals)) in
  x0 ← first_item xvals;
  xl ← last_item xvals;
  let mt := [m_rr tensor; m_tt tensor; m_pp tensor; m_rt tensor; m_rp tensor; m_tp tensor] in
  ax_map ← plot_map st_synth CC (longitude origin) (latitude origin) CClim;
  Ok {| wf_stations := sps;
        wf_legend := (l_s lastp, l_d lastp, l_g lastp);
        wf_xlim := (0, ncols * (6 # 5))%Q;
        wf_ylim := (- (3 # 2), inject_Z nrows * (3 # 2))%Q;
        wf_title := if 0 <=? iteration then Some (depth, iteration, misfit) else None;
        wf_stf := {| xdata := xvals; ydata := map Num yvals;
                     color := "C0"; linestyle := Solid; linewidth := 3 # 2 |};
        wf_stf_hline := (x0, xl);
        wf_beach := mt;
        wf_map := ax_map |}.

(** [plot_waveforms]: the stream is copied, the copy is sorted, the loop runs
    over the copy.  Nothing after the sort writes to the store.  (The output
    directory and the PNG file are outside this model.) *)
Definition plot_waveforms (st_data st_synth : loc)
    (arr_times CC : gmap string Q) (CClim : Q) (dA dT : gmap string Q)
    (stf : list Q) (depth : Z) (origin : Origin) (tensor : MomentTensor)
    (iteration : Z) (misfit : Q) : M WaveformFigure :=
  nplots ← stream_len st_data;
  st_data_plot ← stream_copy st_data;
  stream_sort st_data_plot;;
  trs ← stream_traces st_data_plot;
  synth ← stream_traces st_synth;
  lift_result
    (render_waveforms (Z.of_nat nplots) trs synth arr_times CC CClim dA dT stf
       depth origin tensor iteration misfit).

(** * Notions the statements use *)

(** ** Grid sizing *)

(** The column count the specification words: [ceil(n / rows) + 1]. *)
Definition spec_ncols (n : Z) : Z :=
  Qceiling (inject_Z n / inject_Z (Z.sqrt n + 1)) + 1.

(** The same source line read with Python 2's integer division. *)
Definition grid_ncols_floordiv (nplots : Z) : Z := nplots / grid_nrows nplots + 1.

(** ** Order and store *)

(** Ascending azimuth. *)
Definition azi_le (a b : Trace) : Prop := (azi (stats a) <= azi (stats b))%Q.

(** The store after a call: one new object, the sorted copy. *)
Definition store_after (h : heap) (st_data : loc) : heap :=
  <[fresh (dom h) := sort_by_azi (h !!! st_data)]> h.

(** ** Mappings and normalization *)

(** The values of a mapping, once per key. *)
Definition dict_values (d : gmap string Q) : list Q := map snd (map_to_list d).

(** [max(abs(l)) = m] for an array of doubles [l]: every entry is a number
    of absolute value at most [m], and one entry attains it. *)
Definition max_abs_is (l : list npfloat) (m : Q) : Prop :=
  (∃ q, Num q ∈ l ∧ (Qabs q == m)%Q) ∧
  (∀ y, y ∈ l → ∃ q, y = Num q ∧ (Qabs q <= m)%Q).

(** A station for which some per-station lookup of the loop has nothing to
    find. *)
Definition missing_lookup (arr_times CC dA dT : gmap string Q)
    (synth : list Trace) (tr : Trace) : Prop :=
  CC !! station_code tr = None ∨ dA !! station_code tr = None ∨
  dT !! station_code tr = None ∨ arr_times !! station_code tr = None ∨
  select_station synth (station (stats tr)) = [].

(** ** The two marker groups of the map *)

(** A station of the map: longitude, latitude, value. *)
Definition st_lon (s : Q * Q * Q) : Q := s.1.1.
Definition st_lat (s : Q * Q * Q) : Q := s.1.2.
Definition st_value (s : Q * Q * Q) : Q := s.2.

(** [value > CClim], and its negation. *)
Definition above (CClim : Q) (s : Q * Q * Q) : Prop := Qltb CClim (st_value s) = true.
Definition not_above (CClim : Q) (s : Q * Q * Q) : Prop := Qltb CClim (st_value s) = false.

#[local] Instance above_dec CClim s : Decision (above CClim s).
Proof. unfold above. apply _. Defined.
#[local] Instance not_above_dec CClim s : Decision (not_above CClim s).
Proof. unfold not_above. apply _. Defined.

(** The scatter layer of a group: nothing for the empty group. *)
Definition group_layer (mk : string) (CClim : Q) (G : list (Q * Q * Q)) : list Scatter :=
  match G with
  | [] => []
  | _ => [{| sc_lons := map st_lon G; sc_lats := map st_lat G;
             sc_c := map st_value G; sc_marker := mk;
             sc_vmin := CClim; sc_vmax := 1 |}]
  end.

(** ** Concrete inputs *)

(** A small scenario: three stations handed in out of azimuth order. *)
Module Scenario.
Definition mk_stats (name : string) (az : Q) : Stats :=
  {| station := name; location := "00"; azi := az; delta := 1 # 2;
     stla := 10; stlo := 20 |}.

Definition data_A : Trace := {| stats := mk_stats "A" 30; data := [1; -2; 1]%Q |}.
Definition data_B : Trace := {| stats := mk_stats "B" 10; data := [3; 1; 0; 1]%Q |}.
Definition data_C : Trace := {| stats := mk_stats "C" 20; data := [1; 4]%Q |}.
Definition green_A : Trace := {| stats := mk_stats "A" 30; data := [1; 1; 0]%Q |}.
Definition green_B : Trace := {| stats := mk_stats "B" 10; data := [2; 0; 0; 1]%Q |}.
Definition green_C : Trace := {| stats := mk_stats "C" 20; data := [1; 3]%Q |}.

Definition st_data : loc := 1%positive.
Definition st_synth : loc := 2%positive.
Definition store : heap :=
  <[st_data := [data_A; data_B; data_C]]> (<[st_synth := [green_A; green_B; green_C]]> ∅).

Definition CC : gmap string Q :=
  list_to_map [("A.00", 9 # 10); ("B.00", 3 # 10); ("C.00", 1 # 2)]%Q.
Definition dA : gmap string Q :=
  list_to_map [("A.00", 1); ("B.00", 2); ("C.00", 1)]%Q.
Definition dT : gmap string Q :=
  list_to_map [("A.00", 1); ("B.00", 3); ("C.00", 2)]%Q.
Definition arr_times : gmap string Q :=
  list_to_map [("A.00", 1 # 2); ("B.00", 1); ("C.00", 1 # 4)]%Q.
Definition CClim : Q := 1 # 2.
Definition stf : list Q := [1; 1]%Q.
Definition origin : Origin := {| longitude := 5; latitude := 45 |}.
Definition tensor : MomentTensor :=
  {| m_rr := 1; m_tt := -1; m_pp := 0; m_rt := 0; m_rp := 0; m_tp := 0 |}.

Definition run (h : heap) : result WaveformFigure * heap :=
  plot_waveforms st_data st_synth arr_times CC CClim dA dT stf 1000 origin
    tensor 3 0 h.
End Scenario.

(** Two more inputs: a silent station, and a Green's function shorter than
    the data. *)

Module Silent.
Definition data_Z : Trace := {| stats := Scenario.mk_stats "Z" 0; data := [0; 0]%Q |}.
Definition green_Z : Trace := {| stats := Scenario.mk_stats "Z" 0; data := [1; 1]%Q |}.
Definition store : heap := <[1%positive := [data_Z]]> (<[2%positive := [green_Z]]> ∅).
Definition metrics : gmap string Q := list_to_map [("Z.00", 1%Q)].
Definition run : result WaveformFigure * heap :=
  plot_waveforms 1%positive 2%positive metrics metrics (1 # 2) metrics metrics
    [1%Q] 1000 Scenario.origin Scenario.tensor 0 0 store.
End Silent.

Module ShortGreen.
Definition data_S : Trace := {| stats := Scenario.mk_stats "S" 0; data := [1; 2; 1]%Q |}.
Definition green_S : Trace := {| stats := Scenario.mk_stats "S" 0; data := [2%Q] |}.
Definition store : heap := <[1%positive := [data_S]]> (<[2%positive := [green_S]]> ∅).
Definition metrics : gmap string Q := list_to_map [("S.00", 1%Q)].
Definition run : result WaveformFigure * heap :=
  plot_waveforms 1%positive 2%positive metrics metrics (1 # 2) metrics metrics
    [1%Q] 1000 Scenario.origin Scenario.tensor 0 0 store.
End ShortGreen.

(** ** The rest of the module: output file, axes, labels *)

(** ['%d' % iteration] for an integer [iteration]. *)
Definition format_d (i : Z) : string := pretty i.

(** [os.path.join(a, b)] on POSIX: [b] alone when it is absolute, no
    separator added after an empty [a] or one that ends in a slash. *)
Definition starts_with_sep (s : string) : bool :=
  match s with
  | String c _ => String.eqb (String c EmptyString) "/"
  | EmptyString => false
  end.

Fixpoint ends_with_sep (s : string) : bool :=
  match s with
  | EmptyString => false
  | String c EmptyString => String.eqb (String c EmptyString) "/"
  | String _ s' => ends_with_sep s'
  end.

Definition os_path_join (a b : string) : string :=
  if starts_with_sep b then b
  else if String.eqb a "" || ends_with_sep a then a +:+ b
  else a +:+ "/" +:+ b.

(** [outfile = os.path.join(outdir, 'waveforms_it_%d.png' % iteration)] *)
Definition waveform_outfile (outdir : string) (iteration : Z) : string :=
  os_path_join outdir ("waveforms_it_" +:+ format_d iteration +:+ ".png").

(** The directory part that [os.path.join] puts before a relative name. *)
Definition join_prefix (outdir : string) : string :=
  if String.eqb outdir "" || ends_with_sep outdir then outdir else outdir +:+ "/".

(** The two axes [add_ortho] places inside [rect] (left, bottom, width,
    height): the map axis and, below it, the colorbar axis.  [rect[i]] on a
    list that is too short raises. *)
Definition rect_item (rect : list Q) (i : nat) : result Q :=
  match rect !! i with
  | Some v => Ok v
  | None => Raise IndexError
  end.

Definition ortho_axes_rects (rect : list Q) : result (list Q * list Q) :=
  left ← rect_item rect 0;
  bottom ← rect_item rect 1;
  height ← rect_item rect 3;
  width ← rect_item rect 2;
  height' ← rect_item rect 3;
  let ax := [left; bottom + height * (12 # 100); width; height' * (85 # 100)]%Q in
  left_cm ← rect_item rect 0;
  bottom_cm ← rect_item rect 1;
  width_cm ← rect_item rect 2;
  height_cm ← rect_item rect 3;
  Ok (ax, [left_cm; bottom_cm; width_cm; height_cm * (8 # 100)]%Q).


(** The optional labels of [add_ortho] ([text] given): the loop
    [for lat, lon, text in zip(lats, lons, text)] draws [plt.text(lon, lat,
    text)] for the points less than 90 degrees from the centre.  The distance
    is ObsPy's [locations2degrees]. *)
Section Labels.
Variable locations2degrees : Q → Q → Q → Q → Q.

Fixpoint zip_labels (lats lons : list Q) (text : list string) : list (Q * Q * string) :=
  match lats, lons, text with
  | lat :: lats', lon :: lons', t :: text' => (lat, lon, t) :: zip_labels lats' lons' text'
  | _, _, _ => []
  end.

Definition label_step (central_latitude central_longitude : Q)
    (drawn : list (Q * Q * string)) (item : Q * Q * string) : list (Q * Q * string) :=
  let '(lat, lon, t) := item in
  let dist := locations2degrees lat lon central_latitude central_longitude in
  if Qltb dist 90 then drawn ++ [(lon, lat, t)] else drawn.

(** [text=None] and the empty list are both false in [if (text)]. *)
Definition draw_labels (lats lons : list Q) (text : option (list string))
    (central_latitude central_longitude : Q) : list (Q * Q * string) :=
  match text with
  | None => []
  | Some [] => []
  | Some ts =>
      fold_left (label_step central_latitude central_longitude)
        (zip_labels lats lons ts) []
  end.
End Labels.

(** ** Notions of the further statements *)

(** A station for which every lookup of its pass finds something to work
    on: samples, the four metrics, and a synthetic trace with samples. *)
Definition station_ready (arr_times CC dA dT : gmap string Q)
    (synth : list Trace) (tr : Trace) : Prop :=
  data tr ≠ [] ∧
  is_Some (CC !! station_code tr) ∧ is_Some (dA !! station_code tr) ∧
  is_Some (dT !! station_code tr) ∧ is_Some (arr_times !! station_code tr) ∧
  ∃ g, first_item (select_station synth (station (stats tr))) = Ok g ∧ data g ≠ [].

(** A station drawn on the map with marker [mk]. *)
Definition marked (ax : OrthoAxes) (mk : string) (s : Q * Q * Q) : Prop :=
  ∃ layer, layer ∈ oa_scatters ax ∧ sc_marker layer = mk ∧
    s ∈ zip3 (sc_lons layer) (sc_lats layer) (sc_c layer).

(** The number of markers on the map. *)
Definition markers_drawn (ax : OrthoAxes) : nat :=
  sum_list_with (fun layer => length (sc_lons layer)) (oa_scatters ax).

(** A point of a line inside a rectangle. *)
Definition point_within (xlim ylim : Q * Q) (x y : npfloat) : Prop :=
  ∃ qx qy, x = Num qx ∧ y = Num qy ∧
    (xlim.1 <= qx)%Q ∧ (qx <= xlim.2)%Q ∧ (ylim.1 <= qy)%Q ∧ (qy <= ylim.2)%Q.

(** Inputs at the edges: no data trace, a station without synthetic trace,
    a data trace without samples, a synthetic trace that CC does not know. *)
Module Edge.
Definition empty_B : Trace := {| stats := Scenario.mk_stats "B" 10; data := [] |}.
Definition green_D : Trace := {| stats := Scenario.mk_stats "D" 40; data := [1%Q] |}.
Definition three : list Trace := [Scenario.data_A; Scenario.data_B; Scenario.data_C].
Definition greens : list Trace := [Scenario.green_A; Scenario.green_B; Scenario.green_C].
Definition store_of (st_data st_synth : list Trace) : heap :=
  <[1%positive := st_data]> (<[2%positive := st_synth]> ∅).
Definition call (stf : list Q) (dT : gmap string Q) (h : heap) : result WaveformFigure :=
  fst (plot_waveforms 1%positive 2%positive Scenario.arr_times Scenario.CC
         Scenario.CClim Scenario.dA dT stf 1000 Scenario.origin Scenario.tensor
         3 0 h).
End Edge.

(** * Properties *)

(** ** Rational comparisons *)

Lemma Qltb_lt (x y : Q) : Qltb x y = true ↔ (x < y)%Q.
Proof.
  unfold Qltb. rewrite negb_true_iff, <- not_true_iff_false, Qle_bool_iff.
  split; [apply Qnot_le_lt | apply Qlt_not_le].
Qed.

Lemma Qltb_ge (x y : Q) : Qltb x y = false ↔ (y <= x)%Q.
Proof.
  unfold Qltb. rewrite negb_false_iff. apply Qle_bool_iff.
Qed.

Lemma Qeqb_eq (x y : Q) : Qeqb x y = true ↔ (x == y)%Q.
Proof. apply Qeq_bool_iff. Qed.

Lemma Qeqb_neq (x y : Q) : Qeqb x y = false ↔ ¬ (x == y)%Q.
Proof. rewrite <- Qeqb_eq. symmetry. apply not_true_iff_false. Qed.

(** ** Grid sizing *)

Lemma grid_nrows_sqrt (n : Z) : grid_nrows n = Z.sqrt n + 1.
Proof. reflexivity. Qed.

Lemma grid_nrows_pos (n : Z) : 0 < grid_nrows n.
Proof. rewrite grid_nrows_sqrt. pose proof (Z.sqrt_nonneg n). lia. Qed.

(** A quotient of two integers, the divisor positive, as one fraction. *)
Lemma inject_Z_div (a b : Z) :
  0 < b → (inject_Z a / inject_Z b == a # Z.to_pos b)%Q.
Proof.
  intros Hb. unfold Qdiv, Qinv, Qmult, Qeq, inject_Z. simpl.
  destruct b as [|p|p]; try lia. simpl. lia.
Qed.

Lemma Qfloor_inject_Z_div (a b : Z) :
  0 < b → Qfloor (inject_Z a / inject_Z b) = a / b.
Proof.
  intros Hb. rewrite (Qfloor_comp _ _ (inject_Z_div a b Hb)).
  simpl. by rewrite Z2Pos.id.
Qed.

Lemma Qceiling_inject_Z_div (a b : Z) :
  0 < b → Qceiling (inject_Z a / inject_Z b) = - ((- a) / b).
Proof.
  intros Hb. rewrite (Qceiling_comp _ _ (inject_Z_div a b Hb)).
  unfold Qceiling. simpl. by rewrite Z2Pos.id.
Qed.

(** C1, as claimed, fails at four stations: the code computes [4 / 3 + 1],
    which is 7/3 (and 2 under integer division), not [ceil(4/3) + 1 = 3]. *)
Lemma C1_counterexample_four_stations :
  grid_nrows 4 = 3 ∧ spec_ncols 4 = 3 ∧
  (grid_ncols 4 == 7 # 3)%Q ∧
  ¬ (grid_ncols 4 == inject_Z (spec_ncols 4))%Q ∧
  grid_ncols_floordiv 4 ≠ spec_ncols 4.
Proof.
  repeat split; try reflexivity; vm_compute; congruence.
Qed.

(** C1 (amended): for n >= 1 stations, rows = floor(sqrt(n)) + 1 is an
    integer, and columns = n / rows + 1 is the exact quotient plus one, with
    no ceiling: its integer part is (n div rows) + 1, and it is the integer
    ceil(n / rows) + 1 exactly when rows divides n.  For n = 4: rows = 3 and
    columns = 7/3. *)
Theorem C1_grid_sizing (n : Z) :
  1 ≤ n →
  grid_nrows n = Z.sqrt n + 1 ∧
  (grid_ncols n == inject_Z n / inject_Z (Z.sqrt n + 1) + 1)%Q ∧
  Qfloor (grid_ncols n) = n / (Z.sqrt n + 1) + 1 ∧
  ((grid_ncols n == inject_Z (spec_ncols n))%Q ↔ (Z.sqrt n + 1 | n)) ∧
  (grid_nrows 4 = 3 ∧ (grid_ncols 4 == 7 # 3)%Q).
Proof.
  intros Hn.
  pose proof (Z.sqrt_nonneg n) as Hs.
  set (r := Z.sqrt n + 1) in *.
  assert (Hr : 0 < r) by (unfold r; lia).
  assert (Hnc : (grid_ncols n == inject_Z n / inject_Z r + 1)%Q).
  { unfold grid_ncols. by rewrite grid_nrows_sqrt. }
  split; [apply grid_nrows_sqrt|].
  split; [exact Hnc|].
  split.
  { rewrite (Qfloor_comp _ _ Hnc).
    assert (E : (inject_Z n / inject_Z r + 1 == inject_Z (n + r) / inject_Z r)%Q).
    { rewrite inject_Z_plus. field. intros H0.
      unfold Qeq in H0. simpl in H0. lia. }
    rewrite (Qfloor_comp _ _ E), Qfloor_inject_Z_div by done.
    replace (n + r) with (n + 1 * r) by lia.
    rewrite Z.div_add by lia. done. }
  split; [|split; [reflexivity | vm_compute; reflexivity]].
  unfold spec_ncols. fold r.
  rewrite Hnc, Qceiling_inject_Z_div by done.
  rewrite (inject_Z_div n r Hr).
  rewrite inject_Z_plus.
  unfold Qeq, Qplus, inject_Z. simpl. rewrite Z2Pos.id by done.
  pose proof (Z.div_mod (- n) r ltac:(lia)) as Hdm.
  pose proof (Z.mod_pos_bound (- n) r Hr) as Hb.
  split.
  - intros H. exists (- (- n / r)). nia.
  - intros [k Hk].
    assert (Hq : - n / r = - k).
    { rewrite Hk. replace (- (k * r)) with ((- k) * r) by lia.
      apply Z.div_mul. lia. }
    rewrite Hq. nia.
Qed.

Lemma C1_grid_sizing_witness :
  grid_nrows 9 = 4 ∧ Qfloor (grid_ncols 9) = 3.
Proof.
  destruct (C1_grid_sizing 9 ltac:(lia)) as (Hr & _ & Hf & _).
  split; [exact Hr | exact Hf].
Defined.

(** ** Results *)

Lemma bind_Ok_inv {A B} (r : result A) (k : A → result B) (b : B) :
  r ≫= k = Ok b → ∃ a, r = Ok a ∧ k a = Ok b.
Proof. destruct r as [a|e]; [eauto | discriminate]. Qed.

Lemma bind_Raise_inv {A B} (r : result A) (k : A → result B) (e : py_exception) :
  r ≫= k = Raise e → r = Raise e ∨ ∃ a, r = Ok a ∧ k a = Raise e.
Proof. destruct r as [a|e']; simpl; [eauto | intros [= ->]; by left]. Qed.

Ltac inv_Ok H :=
  repeat match type of H with
  | _ ≫= _ = Ok _ =>
      let a := fresh "a" in let Ha := fresh "Ha" in
      apply bind_Ok_inv in H as (a & Ha & H)
  end.

Lemma getitem_Ok (d : gmap string Q) (key : string) (v : Q) :
  getitem d key = Ok v ↔ d !! key = Some v.
Proof. unfold getitem. destruct (d !! key); split; congruence. Qed.

Lemma getitem_Raise (d : gmap string Q) (key : string) (e : py_exception) :
  getitem d key = Raise e ↔ d !! key = None ∧ e = KeyError key.
Proof.
  unfold getitem. destruct (d !! key); split; try congruence.
  - intros [? _]. congruence.
  - intros [= <-]. done.
  - intros [_ ->]. done.
Qed.

(** ** Sorting by azimuth *)

#[local] Instance azi_le_trans : Transitive azi_le.
Proof. intros a b c. unfold azi_le. apply Qle_trans. Qed.

Lemma insert_by_azi_perm (tr : Trace) (l : list Trace) :
  insert_by_azi tr l ≡ₚ tr :: l.
Proof.
  induction l as [|x l IH]; simpl; [done|].
  destruct (Qle_bool _ _); [done|].
  rewrite IH. apply Permutation_swap.
Qed.

Lemma sort_by_azi_perm (l : list Trace) : sort_by_azi l ≡ₚ l.
Proof.
  induction l as [|x l IH]; simpl; [done|].
  by rewrite insert_by_azi_perm, IH.
Qed.

Lemma sort_by_azi_length (l : list Trace) : length (sort_by_azi l) = length l.
Proof. apply Permutation_length, sort_by_azi_perm. Qed.

Lemma insert_by_azi_sorted (tr : Trace) (l : list Trace) :
  StronglySorted azi_le l → StronglySorted azi_le (insert_by_azi tr l).
Proof.
  induction 1 as [|x l Hs IH Hx]; simpl.
  - repeat constructor.
  - destruct (Qle_bool (azi (stats tr)) (azi (stats x))) eqn:E.
    + apply Qle_bool_iff in E.
      constructor; [by constructor|].
      constructor; [exact E|].
      eapply Forall_impl; [exact Hx|]. intros y Hy. by trans x.
    + constructor; [exact IH|].
      rewrite insert_by_azi_perm. constructor; [|exact Hx].
      assert (Hlt : Qltb (azi (stats x)) (azi (stats tr)) = true).
      { unfold Qltb. by rewrite E. }
      apply Qltb_lt in Hlt. by apply Qlt_le_weak.
Qed.

Lemma sort_by_azi_sorted (l : list Trace) : StronglySorted azi_le (sort_by_azi l).
Proof.
  induction l as [|x l IH]; simpl; [constructor|].
  by apply insert_by_azi_sorted.
Qed.

(** Ascending order by position. *)
Lemma sort_by_azi_ascending (l : list Trace) (i j : nat) (a b : Trace) :
  sort_by_azi l !! i = Some a → sort_by_azi l !! j = Some b →
  (i < j)%nat → azi_le a b.
Proof.
  generalize (sort_by_azi_sorted l). generalize (sort_by_azi l). clear l.
  intros l Hs. revert i j.
  induction Hs as [|x l Hs IH Hx]; intros i j Hi Hj Hij; [done|].
  destruct j as [|j]; [lia|]. simpl in Hj.
  destruct i as [|i]; simpl in Hi.
  - injection Hi as <-. rewrite Forall_forall in Hx.
    apply Hx. by eapply list_elem_of_lookup_2.
  - apply (IH i j); [done | done | lia].
Qed.

(** ** Running plot_waveforms on a store *)

Lemma fresh_not_allocated (h : heap) : h !! fresh (dom h) = None.
Proof. apply not_elem_of_dom, is_fresh. Qed.

Lemma plot_waveforms_run (h : heap) (st_data st_synth : loc)
    (arr_times CC : gmap string Q) (CClim : Q) (dA dT : gmap string Q)
    (stf : list Q) (depth : Z) (origin : Origin) (tensor : MomentTensor)
    (iteration : Z) (misfit : Q) :
  is_Some (h !! st_synth) →
  plot_waveforms st_data st_synth arr_times CC CClim dA dT stf depth origin
    tensor iteration misfit h =
  (render_waveforms (Z.of_nat (length (h !!! st_data)))
     (sort_by_azi (h !!! st_data)) (h !!! st_synth)
     arr_times CC CClim dA dT stf depth origin tensor iteration misfit,
   store_after h st_data).
Proof.
  intros [syn Hsyn].
  unfold plot_waveforms, store_after, mbind, M_bind, stream_len, stream_copy,
    stream_sort, stream_traces, lift_result. simpl.
  pose proof (fresh_not_allocated h) as Hf.
  set (l := fresh (dom h)) in *.
  assert (Hne : l ≠ st_synth) by congruence.
  rewrite insert_insert_eq.
  rewrite !lookup_total_insert_eq.
  rewrite lookup_total_insert_ne by done.
  done.
Qed.

(** ** The station loop *)

Section StationLoopFacts.
Variable st_synth : list Trace.
Variables arr_times CC : gmap string Q.
Variable CClim : Q.
Variables dA dT : gmap string Q.
Variable stf : list Q.
Variable nrows : Z.

Local Abbreviation plot_station' := (plot_station st_synth arr_times CC CClim dA dT stf nrows).
Local Abbreviation plot_stations' := (plot_stations st_synth arr_times CC CClim dA dT stf nrows).

(** What a pass that does not raise has looked up and drawn. *)
Lemma plot_station_Ok (iplot : Z) (tr : Trace) (sp : StationPlot) :
  plot_station' iplot tr = Ok sp →
  ∃ normfac cc g conv da dt arr tlast,
    py_max (np_abs (data tr)) = Ok normfac ∧
    CC !! station_code tr = Some cc ∧
    first_item (select_station st_synth (station (stats tr))) = Ok g ∧
    np_convolve (data g) stf = Ok conv ∧
    dA !! station_code tr = Some da ∧
    dT !! station_code tr = Some dt ∧
    arr_times !! station_code tr = Some arr ∧
    last_item (times tr) = Ok tlast ∧
    let irow := iplot `mod` nrows in
    let icol := py_int (inject_Z iplot / inject_Z nrows) in
    let xoffset := inject_Z icol in
    let yoffset := (inject_Z irow * (3 # 2))%Q in
    let ls := if Qltb CClim cc then Solid else Dotted in
    sp_trace sp = tr ∧ sp_irow sp = irow ∧ sp_icol sp = icol ∧
    sp_normfac sp = normfac ∧
    sp_xoffset sp = xoffset ∧ sp_yoffset sp = yoffset ∧ sp_ls sp = ls ∧
    l_d sp = offset_curve (np_div_all (data tr) normfac) xoffset yoffset "k" ls 2 ∧
    l_g sp = offset_curve (np_div_all (data g) normfac) xoffset yoffset "grey" ls 1 ∧
    l_s sp = offset_curve (np_div_all (take (npts tr) conv) normfac)
               xoffset yoffset "r" ls (3 # 2) ∧
    sp_text sp = {| text_x := xoffset; text_y := (yoffset + (1 # 5))%Q;
                    text_station := station (stats tr);
                    text_CC := cc; text_dA := da; text_dT := dt |}.
Proof.
  unfold plot_station. intros H. inv_Ok H.
  apply getitem_Ok in Ha0, Ha4, Ha5, Ha6, Ha7.
  rewrite Ha1 in Ha2. injection Ha2 as <-.
  rewrite Ha0 in Ha4. injection Ha4 as <-.
  injection H as <-.
  exists a, a0, a1, a3, a5, a6, a7, a8. simpl.
  repeat split; done.
Qed.

Lemma plot_stations_Ok (trs : list Trace) :
  ∀ (iplot : Z) (sps : list StationPlot),
    plot_stations' iplot trs = Ok sps →
    length sps = length trs ∧
    ∀ (k : nat) (sp : StationPlot),
      sps !! k = Some sp →
      ∃ tr, trs !! k = Some tr ∧ plot_station' (iplot + Z.of_nat k) tr = Ok sp.
Proof.
  induction trs as [|tr trs IH]; intros iplot sps H; simpl in H.
  - injection H as <-. split; [done|]. intros k sp Hk. done.
  - inv_Ok H. injection H as <-.
    destruct (IH _ _ Ha0) as [Hlen Hall].
    split; [simpl; by rewrite Hlen|].
    intros [|k] sp Hk; simpl in Hk.
    + injection Hk as <-. exists tr. split; [done|].
      by rewrite Z.add_0_r.
    + destruct (Hall k sp Hk) as (tr' & Htr' & Hsp).
      exists tr'. split; [done|].
      by replace (iplot + Z.of_nat (S k)) with (iplot + 1 + Z.of_nat k) by lia.
Qed.

(** The loop raises what its first failing pass raises. *)
Lemma plot_stations_Raise (trs : list Trace) :
  ∀ (iplot : Z) (e : py_exception),
    plot_stations' iplot trs = Raise e →
    ∃ (k : nat) (tr : Trace),
      trs !! k = Some tr ∧ plot_station' (iplot + Z.of_nat k) tr = Raise e ∧
      ∀ (j : nat) (tr' : Trace), (j < k)%nat → trs !! j = Some tr' →
        ∃ sp, plot_station' (iplot + Z.of_nat j) tr' = Ok sp.
Proof.
  induction trs as [|tr trs IH]; intros iplot e H; simpl in H; [done|].
  apply bind_Raise_inv in H as [H|(sp & Hsp & H)].
  - exists O, tr. rewrite Z.add_0_r. split; [done|]. split; [done|]. lia.
  - apply bind_Raise_inv in H as [H|(sps & _ & H)]; [|done].
    destruct (IH _ _ H) as (k & tr' & Hk & He & Hbefore).
    exists (S k), tr'. split; [done|].
    replace (iplot + Z.of_nat (S k)) with (iplot + 1 + Z.of_nat k) by lia.
    split; [done|].
    intros [|j] tr'' Hj Hl; simpl in Hl.
    + injection Hl as <-. rewrite Z.add_0_r. eauto.
    + replace (iplot + Z.of_nat (S j)) with (iplot + 1 + Z.of_nat j) by lia.
      apply Hbefore; [lia | done].
Qed.
End StationLoopFacts.

(** What [render_waveforms] returns when nothing raised. *)
Lemma render_waveforms_Ok (nplots : Z) (trs st_synth : list Trace)
    (arr_times CC : gmap string Q) (CClim : Q) (dA dT : gmap string Q)
    (stf : list Q) (depth : Z) (origin : Origin) (tensor : MomentTensor)
    (iteration : Z) (misfit : Q) (fig : WaveformFigure) :
  render_waveforms nplots trs st_synth arr_times CC CClim dA dT stf depth
    origin tensor iteration misfit = Ok fig →
  ∃ sps lastp mean_dT ax_map,
    plot_stations st_synth arr_times CC CClim dA dT stf (grid_nrows nplots) 0 trs = Ok sps ∧
    last sps = Some lastp ∧
    _dict_mean dT = Ok mean_dT ∧
    plot_map st_synth CC (longitude origin) (latitude origin) CClim = Ok ax_map ∧
    wf_stations fig = sps ∧
    wf_legend fig = (l_s lastp, l_d lastp, l_g lastp) ∧
    wf_xlim fig = (0, grid_ncols nplots * (6 # 5))%Q ∧
    wf_ylim fig = (- (3 # 2), inject_Z (grid_nrows nplots) * (3 # 2))%Q ∧
    xdata (wf_stf fig) =
      map (fun t => np_qadd (delta (stats (sp_trace lastp)) * t)
                      (np_mulq mean_dT (delta (stats (sp_trace lastp)))))
          (np_arange (length stf)) ∧
    ydata (wf_stf fig) = map Num stf ∧
    wf_map fig = ax_map.
Proof.
  unfold render_waveforms. intros H. inv_Ok H.
  destruct (last a) as [lastp|] eqn:Hlast; [|discriminate].
  injection Ha0 as <-. injection H as <-.
  exists a, lastp, a1, a4. simpl. repeat split; done.
Qed.

(** ** Cell placement *)

Lemma py_int_div_nonneg (i r : Z) :
  0 ≤ i → 0 < r → py_int (inject_Z i / inject_Z r) = i / r.
Proof.
  intros Hi Hr. unfold py_int.
  assert (H0 : Qltb (inject_Z i / inject_Z r) 0 = false).
  { apply Qltb_ge. rewrite (inject_Z_div i r Hr).
    unfold Qle. simpl. lia. }
  rewrite H0. by apply Qfloor_inject_Z_div.
Qed.

(** Column-major fill is injective: the index is [col * rows + row]. *)
Lemma cell_injective (rows i j : Z) :
  0 < rows → i `mod` rows = j `mod` rows → i / rows = j / rows → i = j.
Proof.
  intros Hr Hm Hd.
  rewrite (Z.div_mod i rows), (Z.div_mod j rows) by lia.
  by rewrite Hm, Hd.
Qed.

(** ** builtins.max *)

Lemma max_from_ge (l : list Q) : ∀ m : Q, (m <= max_from m l)%Q.
Proof.
  induction l as [|x l IH]; intros m; simpl; [apply Qle_refl|].
  destruct (Qltb m x) eqn:E; [|apply IH].
  apply Qltb_lt in E. eapply Qle_trans; [apply Qlt_le_weak, E | apply IH].
Qed.

Lemma max_from_upper (l : list Q) :
  ∀ (m x : Q), x ∈ l → (x <= max_from m l)%Q.
Proof.
  induction l as [|y l IH]; intros m x Hx; [by apply elem_of_nil in Hx|].
  apply elem_of_cons in Hx as [->|Hx]; simpl; [|by apply IH].
  destruct (Qltb m y) eqn:E; [apply max_from_ge|].
  apply Qltb_ge in E. eapply Qle_trans; [exact E | apply max_from_ge].
Qed.

Lemma max_from_elem (l : list Q) : ∀ m : Q, max_from m l ∈ m :: l.
Proof.
  induction l as [|x l IH]; intros m; simpl; [left|].
  destruct (Qltb m x).
  - right. apply IH.
  - specialize (IH m). apply elem_of_cons in IH as [->|IH]; [left | by do 2 right].
Qed.

(** [max] returns an item of the list that bounds all of them. *)
Lemma py_max_Ok (l : list Q) (m : Q) :
  py_max l = Ok m → m ∈ l ∧ ∀ x, x ∈ l → (x <= m)%Q.
Proof.
  destruct l as [|y l]; [done|]. intros [= <-]. split.
  - apply max_from_elem.
  - intros x Hx. apply elem_of_cons in Hx as [->|Hx];
      [apply max_from_ge | by apply max_from_upper].
Qed.

Lemma py_max_Raise (l : list Q) (e : py_exception) :
  py_max l = Raise e → l = [] ∧ e = ValueError.
Proof. destruct l; [intros [= <-]; done | done]. Qed.

(** ** Sums and the convolution *)

Lemma Qsum_app (l1 l2 : list Q) : (Qsum (l1 ++ l2) == Qsum l1 + Qsum l2)%Q.
Proof.
  induction l1 as [|x l1 IH]; simpl.
  - by rewrite Qplus_0_l.
  - rewrite IH. apply Qplus_assoc.
Qed.

Lemma Qsum_map_ext (f g : nat → Q) (l : list nat) :
  (∀ j, j ∈ l → (f j == g j)%Q) → (Qsum (map f l) == Qsum (map g l))%Q.
Proof.
  induction l as [|j l IH]; intros H; simpl; [reflexivity|].
  rewrite (H j) by left. rewrite IH; [reflexivity|].
  intros j' Hj'. apply H. by right.
Qed.

(** Summing from the other end. *)
Lemma Qsum_reverse (k : nat) :
  ∀ f : nat → Q,
    (Qsum (map (fun j => f (k - j)%nat) (seq 0 (S k))) == Qsum (map f (seq 0 (S k))))%Q.
Proof.
  induction k as [|k IH]; intros f; [simpl; reflexivity|].
  rewrite (seq_S (S k) 0) at 2. rewrite map_app, Qsum_app.
  change (seq 0 (S (S k))) with (0%nat :: seq 1 (S k)).
  rewrite <- seq_shift, map_cons, map_map. simpl Qsum at 1.
  simpl Qsum at 3. rewrite Qplus_0_r.
  rewrite (IH f). apply Qplus_comm.
Qed.

Lemma conv_sample_comm (a v : list Q) (k : nat) :
  (conv_sample a v k == conv_sample v a k)%Q.
Proof.
  unfold conv_sample.
  rewrite <- (Qsum_reverse k (fun j => (nthQ v j * nthQ a (k - j))%Q)).
  apply Qsum_map_ext. intros j Hj.
  apply list_elem_of_In, in_seq in Hj.
  replace (k - (k - j))%nat with j by lia.
  apply Qmult_comm.
Qed.

Lemma conv_full_length (a v : list Q) :
  length (conv_full a v) = (length a + length v - 1)%nat.
Proof. unfold conv_full. by rewrite length_map, length_seq. Qed.

Lemma conv_full_lookup (a v : list Q) (k : nat) (c : Q) :
  conv_full a v !! k = Some c → c = conv_sample a v k.
Proof.
  unfold conv_full. rewrite list_lookup_fmap. intros H.
  destruct (seq 0 (length a + length v - 1) !! k) as [j|] eqn:E; [|done].
  apply lookup_seq in E as [-> _]. by injection H as <-.
Qed.

(** [np.convolve] on two non-empty arrays: the length and the samples of the
    full convolution, whichever argument numpy puts first. *)
Lemma np_convolve_Ok (a v conv : list Q) :
  np_convolve a v = Ok conv →
  a ≠ [] ∧ v ≠ [] ∧
  length conv = (length a + length v - 1)%nat ∧
  ∀ (k : nat) (c : Q), conv !! k = Some c → (c == conv_sample a v k)%Q.
Proof.
  unfold np_convolve.
  destruct (length a <? length v)%nat eqn:E.
  - destruct v as [|y v]; [done|]. destruct a as [|x a]; [done|].
    intros [= <-]. repeat split; try done.
    + rewrite conv_full_length. lia.
    + intros k c Hk. apply conv_full_lookup in Hk as ->. apply conv_sample_comm.
  - destruct a as [|x a]; [done|]. destruct v as [|y v]; [done|].
    intros [= <-]. repeat split; try done.
    + apply conv_full_length.
    + intros k c Hk. by apply conv_full_lookup in Hk as ->.
Qed.

Lemma np_convolve_Raise (a v : list Q) (e : py_exception) :
  np_convolve a v = Raise e → e = ValueError ∧ (a = [] ∨ v = []).
Proof.
  unfold np_convolve.
  destruct (length a <? length v)%nat.
  - destruct v as [|y v]; [intros [= <-]; auto|].
    destruct a as [|x a]; [intros [= <-]; auto | done].
  - destruct a as [|x a]; [intros [= <-]; auto|].
    destruct v as [|y v]; [intros [= <-]; auto | done].
Qed.

(** ** _dict_mean *)

(** The fill loop never leaves the array: it overwrites one slot per item. *)
Lemma fill_values_Ok (items : list (string * Q)) :
  ∀ (i : nat) (x : list Q),
    (i + length items ≤ length x)%nat →
    fill_values items i x =
      Ok (take i x ++ map snd items ++ drop (i + length items) x).
Proof.
  induction items as [|[key value] items IH]; intros i x Hlen; simpl in *.
  - by rewrite Nat.add_0_r, take_drop.
  - unfold setitem.
    destruct (Nat.ltb_spec i (length x)) as [Hi|Hi]; [|lia]. simpl.
    rewrite IH by (rewrite length_insert; lia). f_equal.
    rewrite (take_S_r _ _ value) by (apply list_lookup_insert_eq; lia).
    rewrite take_insert_ge by lia.
    rewrite drop_insert_lt by lia.
    rewrite <- app_assoc. simpl. by rewrite Nat.add_succ_r.
Qed.

Lemma _dict_mean_values (d : gmap string Q) :
  _dict_mean d = Ok (np_mean (map snd (map_to_list d))).
Proof.
  unfold _dict_mean.
  rewrite fill_values_Ok by (rewrite length_replicate, length_map_to_list; lia).
  simpl. rewrite length_map_to_list.
  rewrite drop_ge by (rewrite length_replicate; lia).
  by rewrite app_nil_r.
Qed.

Lemma dict_values_length (d : gmap string Q) : length (dict_values d) = size d.
Proof. unfold dict_values. by rewrite length_map, length_map_to_list. Qed.

Lemma dict_values_insert (d : gmap string Q) (key : string) (v : Q) :
  d !! key = None → dict_values (<[key := v]> d) ≡ₚ v :: dict_values d.
Proof.
  intros H. unfold dict_values. by rewrite map_to_list_insert.
Qed.

Lemma dict_values_nil (d : gmap string Q) : dict_values d = [] ↔ d = ∅.
Proof.
  unfold dict_values. rewrite <- map_to_list_empty_iff.
  destruct (map_to_list d); simpl; split; congruence.
Qed.

Lemma _dict_mean_nonempty (d : gmap string Q) :
  d ≠ ∅ →
  _dict_mean d = Ok (Num (Qsum (dict_values d) / inject_Z (Z.of_nat (size d)))).
Proof.
  intros Hne. rewrite _dict_mean_values. fold (dict_values d).
  rewrite <- dict_values_length.
  destruct (dict_values d) eqn:E; [by apply dict_values_nil in E|done].
Qed.

(** C4, as claimed, fails on the empty mapping: the call returns [nan], it
    does not raise (and nothing in the module is called EmptyInputError). *)
Lemma C4_counterexample_empty_mapping :
  _dict_mean ∅ = Ok NaN ∧
  ¬ ∃ e, _dict_mean ∅ = Raise e ∧ exn_class_name e = "EmptyInputError".
Proof.
  split; [reflexivity|]. intros (e & H & _). discriminate H.
Qed.

(** C4 (amended): on a non-empty mapping of strings to numbers [_dict_mean]
    returns the unweighted arithmetic mean of the values (the sum of the
    values, one per key, over the number of keys; 2.0 for
    {"a": 1.0, "b": 3.0}); on the empty mapping it does not fail: it returns
    NaN. *)
Theorem C4_dict_mean (d : gmap string Q) :
  (d ≠ ∅ →
     ∃ m, _dict_mean d = Ok (Num m) ∧
       (m == Qsum (dict_values d) / inject_Z (Z.of_nat (size d)))%Q ∧
       length (dict_values d) = size d) ∧
  (d = ∅ → _dict_mean d = Ok NaN) ∧
  (∃ m, _dict_mean (list_to_map [("a", 1%Q); ("b", 3%Q)]) = Ok (Num m) ∧ (m == 2)%Q).
Proof.
  split; [|split].
  - intros Hne. eexists. split; [by apply _dict_mean_nonempty|].
    split; [reflexivity | apply dict_values_length].
  - intros ->. reflexivity.
  - eexists. split; [vm_compute; reflexivity | reflexivity].
Qed.

Lemma C4_dict_mean_witness :
  ∃ m, _dict_mean (list_to_map [("p", 2%Q); ("q", 4%Q); ("r", 9%Q)]) = Ok (Num m) ∧
    (m == 5)%Q.
Proof.
  destruct (C4_dict_mean (list_to_map [("p", 2%Q); ("q", 4%Q); ("r", 9%Q)]))
    as [H _].
  destruct H as (m & Hm & Hq & _).
  - vm_compute. discriminate.
  - exists m. split; [exact Hm|]. rewrite Hq. vm_compute. reflexivity.
Defined.

(** ** Normalization *)

Lemma np_div_nonzero (x y : Q) : ¬ (y == 0)%Q → np_div x y = Num (x / y).
Proof. intros Hy. unfold np_div. apply Qeqb_neq in Hy. by rewrite Hy. Qed.

Lemma Qabs_div_pos (y m : Q) : (0 < m)%Q → (Qabs (y / m) == Qabs y / m)%Q.
Proof.
  intros Hm. unfold Qdiv. rewrite Qabs_Qmult.
  rewrite (Qabs_pos (/ m)); [reflexivity|].
  apply Qinv_le_0_compat. by apply Qlt_le_weak.
Qed.

(** An array divided by the maximum of its absolute values, when that
    maximum is not zero, has maximum absolute value one. *)
Lemma normalized_max_abs (l : list Q) (m : Q) :
  py_max (np_abs l) = Ok m → ¬ (m == 0)%Q → max_abs_is (np_div_all l m) 1.
Proof.
  intros Hmax Hm0. apply py_max_Ok in Hmax as [Hin Hub].
  unfold np_abs in Hin, Hub.
  apply list_elem_of_fmap in Hin as (y0 & Hy0 & Hin).
  assert (Hpos : (0 < m)%Q).
  { destruct (Qlt_le_dec 0 m) as [H|H]; [done|]. exfalso. apply Hm0.
    apply Qle_antisym; [done|]. rewrite Hy0. apply Qabs_nonneg. }
  split.
  - exists (y0 / m)%Q. split.
    + apply list_elem_of_fmap. exists y0. split; [|done].
      symmetry. by apply np_div_nonzero.
    + rewrite Qabs_div_pos by done. rewrite <- Hy0. by field.
  - intros y Hy. apply list_elem_of_fmap in Hy as (x & -> & Hx).
    exists (x / m)%Q. split; [by apply np_div_nonzero|].
    rewrite Qabs_div_pos by done.
    apply Qle_shift_div_r; [done|]. rewrite Qmult_1_l.
    apply Hub. apply list_elem_of_fmap. eauto.
Qed.

(** With a zero maximum (a silent trace) every entry is 0/0. *)
Lemma normalized_silent (l : list Q) :
  py_max (np_abs l) = Ok 0%Q → Forall (fun y => y = NaN) (np_div_all l 0).
Proof.
  intros Hmax. apply py_max_Ok in Hmax as [_ Hub].
  apply Forall_forall. intros y Hy.
  apply list_elem_of_fmap in Hy as (x & -> & Hx).
  assert (Hx0 : (x == 0)%Q).
  { assert (Ha : (Qabs x <= 0)%Q).
    { apply Hub. unfold np_abs. apply list_elem_of_fmap. eauto. }
    apply Qabs_Qle_condition in Ha as [H1 H2]. by apply Qle_antisym. }
  unfold np_div. simpl. apply Qeqb_eq in Hx0. by rewrite Hx0.
Qed.

(** ** What the station loop raises *)

Lemma first_item_Raise {A} (l : list A) (e : py_exception) :
  first_item l = Raise e → l = [] ∧ e = IndexError.
Proof. destruct l; [intros [= <-]; done | done]. Qed.

Lemma last_item_Raise {A} (l : list A) (e : py_exception) :
  last_item l = Raise e → l = [] ∧ e = IndexError.
Proof.
  unfold last_item. destruct (last l) eqn:E; [done|].
  intros [= <-]. by apply last_None in E.
Qed.

Lemma exn_class_builtin (e : py_exception) :
  exn_class_name e ≠ "MissingStationDataError" ∧ exn_class_name e ≠ "EmptyInputError".
Proof. destruct e; simpl; split; discriminate. Qed.

Section StationLoopRaises.
Variable st_synth : list Trace.
Variables arr_times CC : gmap string Q.
Variable CClim : Q.
Variables dA dT : gmap string Q.
Variable stf : list Q.
Variable nrows : Z.

Local Abbreviation plot_station' := (plot_station st_synth arr_times CC CClim dA dT stf nrows).
Local Abbreviation plot_stations' := (plot_stations st_synth arr_times CC CClim dA dT stf nrows).

(** A pass raises one of three built-in exceptions; a [KeyError] carries
    the code of the station of that pass. *)
Lemma plot_station_Raise (iplot : Z) (tr : Trace) (e : py_exception) :
  plot_station' iplot tr = Raise e →
  e = ValueError ∨ e = IndexError ∨ e = KeyError (station_code tr).
Proof.
  unfold plot_station. intros H.
  apply bind_Raise_inv in H as [H|(normfac & _ & H)];
    [apply py_max_Raise in H as [_ ->]; auto|].
  apply bind_Raise_inv in H as [H|(cc & _ & H)];
    [apply getitem_Raise in H as [_ ->]; auto|].
  apply bind_Raise_inv in H as [H|(g & _ & H)];
    [apply first_item_Raise in H as [_ ->]; auto|].
  apply bind_Raise_inv in H as [H|(g' & _ & H)];
    [apply first_item_Raise in H as [_ ->]; auto|].
  apply bind_Raise_inv in H as [H|(conv & _ & H)];
    [apply np_convolve_Raise in H as [-> _]; auto|].
  apply bind_Raise_inv in H as [H|(cc' & _ & H)];
    [apply getitem_Raise in H as [_ ->]; auto|].
  apply bind_Raise_inv in H as [H|(da & _ & H)];
    [apply getitem_Raise in H as [_ ->]; auto|].
  apply bind_Raise_inv in H as [H|(dt & _ & H)];
    [apply getitem_Raise in H as [_ ->]; auto|].
  apply bind_Raise_inv in H as [H|(arr & _ & H)];
    [apply getitem_Raise in H as [_ ->]; auto|].
  apply bind_Raise_inv in H as [H|(tlast & _ & H)];
    [apply last_item_Raise in H as [_ ->]; auto|].
  done.
Qed.

(** The first lookup of a pass is [CC[code]]: with data samples to take the
    maximum of and no entry in [CC], the pass raises [KeyError(code)]. *)
Lemma plot_station_no_CC (iplot : Z) (tr : Trace) :
  data tr ≠ [] → CC !! station_code tr = None →
  plot_station' iplot tr = Raise (KeyError (station_code tr)).
Proof.
  intros Hd Hcc. unfold plot_station.
  destruct (data tr) as [|y l] eqn:E; [done|]. simpl.
  unfold getitem. by rewrite Hcc.
Qed.

Lemma plot_stations_first_failure (trs : list Trace) :
  ∀ (iplot : Z) (k : nat) (tr : Trace) (e : py_exception),
    trs !! k = Some tr →
    (∀ (j : nat) (tr' : Trace), (j < k)%nat → trs !! j = Some tr' →
       ∃ sp, plot_station' (iplot + Z.of_nat j) tr' = Ok sp) →
    plot_station' (iplot + Z.of_nat k) tr = Raise e →
    plot_stations' iplot trs = Raise e.
Proof.
  induction trs as [|t trs IH]; intros iplot k tr e Hk Hbefore He; [done|].
  destruct k as [|k]; simpl in Hk.
  - injection Hk as ->. simpl. rewrite Z.add_0_r in He. by rewrite He.
  - simpl. destruct (Hbefore O t ltac:(lia) eq_refl) as [sp Hsp].
    rewrite Z.add_0_r in Hsp. rewrite Hsp. simpl.
    rewrite (IH (iplot + 1) k tr e); [done | done | |].
    + intros j tr' Hj Hl.
      replace (iplot + 1 + Z.of_nat j) with (iplot + Z.of_nat (S j)) by lia.
      apply Hbefore; [lia | done].
    + by replace (iplot + 1 + Z.of_nat k) with (iplot + Z.of_nat (S k)) by lia.
Qed.

(** A loop that ran to its end has found every lookup of every station. *)
Lemma plot_stations_complete (trs : list Trace) (iplot : Z)
    (sps : list StationPlot) (tr : Trace) :
  plot_stations' iplot trs = Ok sps → tr ∈ trs →
  is_Some (CC !! station_code tr) ∧ is_Some (dA !! station_code tr) ∧
  is_Some (dT !! station_code tr) ∧ is_Some (arr_times !! station_code tr) ∧
  select_station st_synth (station (stats tr)) ≠ [].
Proof.
  intros Hsps Hin.
  apply list_elem_of_lookup in Hin as [k Hk].
  destruct (plot_stations_Ok _ _ _ _ _ _ _ _ _ _ _ Hsps) as [Hlen Hall].
  destruct (lookup_lt_is_Some_2 sps k) as [sp Hsp].
  { rewrite Hlen. by eapply lookup_lt_Some. }
  destruct (Hall k sp Hsp) as (tr' & Hk' & Hok).
  assert (tr' = tr) as -> by congruence.
  apply plot_station_Ok in Hok
    as (normfac & cc & g & conv & da & dt & arr & tlast
        & _ & Hcc & Hg & _ & HdA & HdT & Harr & _).
  repeat split; try by eexists.
  intros Hnil. by rewrite Hnil in Hg.
Qed.
End StationLoopRaises.

Section Figure.
Variable h : heap.
Variables st_data st_synth : loc.
Variables arr_times CC : gmap string Q.
Variable CClim : Q.
Variables dA dT : gmap string Q.
Variable stf : list Q.
Variable depth : Z.
Variable origin : Origin.
Variable tensor : MomentTensor.
Variable iteration : Z.
Variable misfit : Q.
Variables traces synth : list Trace.
Variable fig : WaveformFigure.

Hypothesis Hdata : h !! st_data = Some traces.
Hypothesis Hsynth : h !! st_synth = Some synth.
Hypothesis Hrun :
  fst (plot_waveforms st_data st_synth arr_times CC CClim dA dT stf depth
         origin tensor iteration misfit h) = Ok fig.

Local Abbreviation rows := (Z.sqrt (Z.of_nat (length traces)) + 1).

(** The call is the pure rendering of the sorted copy. *)
Lemma run_eq :
  fst (plot_waveforms st_data st_synth arr_times CC CClim dA dT stf depth
         origin tensor iteration misfit h) =
  render_waveforms (Z.of_nat (length traces)) (sort_by_azi traces) synth
    arr_times CC CClim dA dT stf depth origin tensor iteration misfit.
Proof using Hdata Hsynth.
  rewrite plot_waveforms_run by (by eexists). simpl.
  by rewrite (lookup_total_correct _ _ _ Hdata),
    (lookup_total_correct _ _ _ Hsynth).
Qed.

(** Every drawn station is a pass of the loop over the sorted copy. *)
Lemma drawn_station (i : nat) (sp : StationPlot) :
  wf_stations fig !! i = Some sp →
  ∃ tr, sort_by_azi traces !! i = Some tr ∧
    plot_station synth arr_times CC CClim dA dT stf rows
      (Z.of_nat i) tr = Ok sp.
Proof using Hdata Hsynth Hrun.
  intros Hi. pose proof Hrun as Hr. rewrite run_eq in Hr.
  apply render_waveforms_Ok in Hr
    as (sps & lastp & m & ax & Hsps & _ & _ & _ & Hst & _).
  rewrite grid_nrows_sqrt in Hsps.
  apply plot_stations_Ok in Hsps as [_ Hall].
  rewrite Hst in Hi. destruct (Hall i sp Hi) as (tr & Htr & Hsp).
  exists tr. by rewrite Z.add_0_l in Hsp.
Qed.

Lemma drawn_station_count : length (wf_stations fig) = length traces.
Proof using Hdata Hsynth Hrun.
  pose proof Hrun as Hr. rewrite run_eq in Hr.
  apply render_waveforms_Ok in Hr
    as (sps & lastp & m & ax & Hsps & _ & _ & _ & Hst & _).
  apply plot_stations_Ok in Hsps as [Hlen _].
  by rewrite Hst, Hlen, sort_by_azi_length.
Qed.

(** The axis limits are the grid sizes times the cell pitch. *)
Lemma figure_limits :
  wf_xlim fig = (0, grid_ncols (Z.of_nat (length traces)) * (6 # 5))%Q ∧
  wf_ylim fig = (- (3 # 2), inject_Z (grid_nrows (Z.of_nat (length traces))) * (3 # 2))%Q.
Proof using Hdata Hsynth Hrun.
  pose proof Hrun as Hr. rewrite run_eq in Hr.
  apply render_waveforms_Ok in Hr
    as (sps & lastp & m & ax & _ & _ & _ & _ & _ & _ & Hx & Hy & _).
  by rewrite Hx, Hy.
Qed.

(** C9: the stations are drawn in ascending azimuth order (a sorted
    permutation of the input); the station at sorted index i gets
    row = i mod rows and column = i div rows, and two different indices
    never get the same (row, column) cell.  The cell origin is
    x = column, y = row * 1.5: each of the three curves of the station has
    the abscissae linspace(0, 0.8, n) + column, n the number of its samples,
    and the ordinates sample / normfac + row * 1.5, for the samples of the
    data trace, of the first synthetic trace of the station, and of the
    first npts samples of that trace convolved with the STF; the text is
    anchored at (column, row * 1.5 + 0.2). *)
Theorem C9_cell_placement :
  sort_by_azi traces ≡ₚ traces ∧
  StronglySorted azi_le (sort_by_azi traces) ∧
  length (wf_stations fig) = length traces ∧
  (∀ (i : nat) (sp : StationPlot),
     wf_stations fig !! i = Some sp →
     sort_by_azi traces !! i = Some (sp_trace sp) ∧
     sp_irow sp = Z.of_nat i `mod` rows ∧
     sp_icol sp = Z.of_nat i / rows ∧
     sp_xoffset sp = inject_Z (sp_icol sp) ∧
     sp_yoffset sp = (inject_Z (sp_irow sp) * (3 # 2))%Q ∧
     (∃ yd yg ys,
        l_d sp = offset_curve yd (sp_xoffset sp) (sp_yoffset sp) "k" (sp_ls sp) 2 ∧
        l_g sp = offset_curve yg (sp_xoffset sp) (sp_yoffset sp) "grey" (sp_ls sp) 1 ∧
        l_s sp = offset_curve ys (sp_xoffset sp) (sp_yoffset sp) "r" (sp_ls sp) (3 # 2)) ∧
     ∃ g conv,
       first_item (select_station synth (station (stats (sp_trace sp)))) = Ok g ∧
       np_convolve (data g) stf = Ok conv ∧
       let column := inject_Z (Z.of_nat i / rows) in
       let level := (inject_Z (Z.of_nat i `mod` rows) * (3 # 2))%Q in
       let across (n : nat) :=
         map (fun x => Num (x + column)%Q) (np_linspace0 (4 # 5) n) in
       let raised (samples : list Q) :=
         map (fun y => np_addq (np_div y (sp_normfac sp)) level) samples in
       xdata (l_d sp) = across (length (data (sp_trace sp))) ∧
       ydata (l_d sp) = raised (data (sp_trace sp)) ∧
       xdata (l_g sp) = across (length (data g)) ∧
       ydata (l_g sp) = raised (data g) ∧
       xdata (l_s sp) = across (length (take (npts (sp_trace sp)) conv)) ∧
       ydata (l_s sp) = raised (take (npts (sp_trace sp)) conv) ∧
       text_x (sp_text sp) = column ∧
       text_y (sp_text sp) = (level + (1 # 5))%Q) ∧
  (∀ (i j : nat) (sp sp' : StationPlot),
     wf_stations fig !! i = Some sp → wf_stations fig !! j = Some sp' →
     i ≠ j → (sp_irow sp, sp_icol sp) ≠ (sp_irow sp', sp_icol sp')).
Proof using Hdata Hsynth Hrun.
  assert (Hrows : 0 < rows).
  { pose proof (Z.sqrt_nonneg (Z.of_nat (length traces))). lia. }
  assert (Hcell : ∀ (i : nat) (sp : StationPlot),
    wf_stations fig !! i = Some sp →
    sort_by_azi traces !! i = Some (sp_trace sp) ∧
    sp_irow sp = Z.of_nat i `mod` rows ∧
    sp_icol sp = Z.of_nat i / rows).
  { intros i sp Hi.
    destruct (drawn_station i sp Hi) as (tr & Htr & Hsp).
    apply plot_station_Ok in Hsp
      as (normfac & cc & g & conv & da & dt & arr & tlast
          & _ & _ & _ & _ & _ & _ & _ & _ & Hsp).
    simpl in Hsp.
    destruct Hsp as (Ht & Hrow & Hcol & _).
    rewrite py_int_div_nonneg in Hcol by lia.
    by rewrite Ht, Hrow, Hcol. }
  split; [apply sort_by_azi_perm|].
  split; [apply sort_by_azi_sorted|].
  split; [apply drawn_station_count|].
  split.
  - intros i sp Hi.
    destruct (Hcell i sp Hi) as (Hsorted & Hirow & Hicol).
    destruct (drawn_station i sp Hi) as (tr & Htr & Hsp).
    apply plot_station_Ok in Hsp
      as (normfac & cc & g & conv & da & dt & arr & tlast
          & _ & _ & Hg & Hconv & _ & _ & _ & _ & Hsp).
    simpl in Hsp.
    destruct Hsp as (Ht & Hrow & Hcol & Hn & Hx & Hy & Hls & Hd & Hg' & Hs & Htext).
    rewrite py_int_div_nonneg in Hcol, Hx, Hd, Hg', Hs, Htext by lia.
    split; [done|]. split; [done|]. split; [done|].
    split; [by rewrite Hx, Hicol|].
    split; [by rewrite Hy, Hirow|].
    split.
    { rewrite Hx, Hy, Hls, Hd, Hg', Hs. by eexists _, _, _. }
    exists g, conv.
    split; [by rewrite Ht|]. split; [done|].
    rewrite Hd, Hg', Hs, Htext, Ht, Hn.
    unfold offset_curve, np_div_all. simpl.
    rewrite !length_map, !map_map.
    repeat split; reflexivity.
  - intros i j sp sp' Hi Hj Hne Heq.
    destruct (Hcell i sp Hi) as (_ & Hr & Hc).
    destruct (Hcell j sp' Hj) as (_ & Hr' & Hc').
    injection Heq as Hrr Hcc.
    apply Hne, Nat2Z.inj, (cell_injective rows); [done | congruence | congruence].
Qed.
(** The locals of the pass that drew a station. *)
Lemma drawn_station_facts (i : nat) (sp : StationPlot) :
  wf_stations fig !! i = Some sp →
  ∃ cc g conv,
    sort_by_azi traces !! i = Some (sp_trace sp) ∧
    py_max (np_abs (data (sp_trace sp))) = Ok (sp_normfac sp) ∧
    CC !! station_code (sp_trace sp) = Some cc ∧
    is_Some (dT !! station_code (sp_trace sp)) ∧
    first_item (select_station synth (station (stats (sp_trace sp)))) = Ok g ∧
    np_convolve (data g) stf = Ok conv ∧
    sp_ls sp = (if Qltb CClim cc then Solid else Dotted) ∧
    l_d sp = offset_curve (np_div_all (data (sp_trace sp)) (sp_normfac sp))
               (sp_xoffset sp) (sp_yoffset sp) "k" (sp_ls sp) 2 ∧
    l_g sp = offset_curve (np_div_all (data g) (sp_normfac sp))
               (sp_xoffset sp) (sp_yoffset sp) "grey" (sp_ls sp) 1 ∧
    l_s sp = offset_curve
               (np_div_all (take (npts (sp_trace sp)) conv) (sp_normfac sp))
               (sp_xoffset sp) (sp_yoffset sp) "r" (sp_ls sp) (3 # 2).
Proof using Hdata Hsynth Hrun.
  intros Hi. destruct (drawn_station i sp Hi) as (tr & Htr & Hsp).
  apply plot_station_Ok in Hsp
    as (normfac & cc & g & conv & da & dt & arr & tlast
        & Hmax & Hcc & Hg & Hconv & _ & HdT & _ & _ & Hsp).
  simpl in Hsp.
  destruct Hsp as (Ht & _ & _ & Hn & Hx & Hy & Hls & Hd & Hgl & Hs & _).
  exists cc, g, conv. rewrite Ht, Hn, Hx, Hy, Hls, Hd, Hgl, Hs.
  repeat split; try done; by exists dt.
Qed.

(** C7: the three curves of a station share one line style, and that style
    is a function of CC[code] and CClim alone: solid exactly when
    CC[code] > CClim, dotted otherwise, so dotted when the two are equal. *)
Theorem C7_line_style (i : nat) (sp : StationPlot) :
  wf_stations fig !! i = Some sp →
  ∃ cc, CC !! station_code (sp_trace sp) = Some cc ∧
    linestyle (l_d sp) = (if Qltb CClim cc then Solid else Dotted) ∧
    linestyle (l_g sp) = linestyle (l_d sp) ∧
    linestyle (l_s sp) = linestyle (l_d sp) ∧
    (linestyle (l_d sp) = Solid ↔ (CClim < cc)%Q) ∧
    (linestyle (l_d sp) = Dotted ↔ (cc <= CClim)%Q) ∧
    ((cc == CClim)%Q → linestyle (l_d sp) = Dotted).
Proof using Hdata Hsynth Hrun.
  intros Hi. destruct (drawn_station_facts i sp Hi)
    as (cc & g & conv & _ & _ & Hcc & _ & _ & _ & Hls & Hd & Hg & Hs).
  exists cc. rewrite Hd, Hg, Hs, Hls. simpl.
  split; [done|]. split; [done|]. split; [done|]. split; [done|].
  destruct (Qltb CClim cc) eqn:E.
  - apply Qltb_lt in E. repeat split; try done.
    + intros Hle. by apply Qle_not_lt in Hle.
    + intros Heq. rewrite Heq in E. by apply Qlt_irrefl in E.
  - apply Qltb_ge in E. repeat split; try done.
    intros Hlt. by apply Qle_not_lt in E.
Qed.

(** C6 (amended): the three curves of a station are all divided by the one
    factor max(abs(data)) taken from that station's data trace, before the
    cell offset is added; when that factor is not zero, that is when the
    data trace has a non-zero sample, max(abs(normalized data)) = 1. *)
Theorem C6_shared_normalization (i : nat) (sp : StationPlot) :
  wf_stations fig !! i = Some sp →
  let tr := sp_trace sp in
  let normfac := sp_normfac sp in
  py_max (np_abs (data tr)) = Ok normfac ∧
  (∃ y, y ∈ data tr ∧ normfac = Qabs y) ∧
  (∀ y, y ∈ data tr → (Qabs y <= normfac)%Q) ∧
  (∃ g conv,
     first_item (select_station synth (station (stats tr))) = Ok g ∧
     np_convolve (data g) stf = Ok conv ∧
     ydata (l_d sp) =
       map (fun y => np_addq y (sp_yoffset sp)) (np_div_all (data tr) normfac) ∧
     ydata (l_g sp) =
       map (fun y => np_addq y (sp_yoffset sp)) (np_div_all (data g) normfac) ∧
     ydata (l_s sp) =
       map (fun y => np_addq y (sp_yoffset sp))
         (np_div_all (take (npts tr) conv) normfac)) ∧
  (¬ (normfac == 0)%Q → max_abs_is (np_div_all (data tr) normfac) 1).
Proof using Hdata Hsynth Hrun.
  intros Hi. destruct (drawn_station_facts i sp Hi)
    as (cc & g & conv & _ & Hmax & _ & _ & Hg & Hconv & _ & Hd & Hgl & Hs).
  simpl. split; [done|].
  pose proof (py_max_Ok _ _ Hmax) as [Hin Hub].
  split.
  { unfold np_abs in Hin. apply list_elem_of_fmap in Hin as (y & Hy & Hin). eauto. }
  split.
  { intros y Hy. apply Hub. unfold np_abs. apply list_elem_of_fmap. eauto. }
  split.
  { exists g, conv. rewrite Hd, Hgl, Hs. done. }
  intros Hne. by apply normalized_max_abs.
Qed.

(** C2 (amended): the synthetic curve of a station is the full convolution
    of its Green's-function trace (the first trace of that station in the
    synthetic stream) with the STF, cut to its first N samples, N the
    sample count of the data trace, then divided by the station's
    normalization factor and shifted by the cell offset.  Sample k of the
    convolution is the sum of g[j] * stf[k - j] over j <= k.  The curve has
    min(N, len(g) + len(stf) - 1) samples: exactly N when the convolution
    is at least that long. *)
Theorem C2_synthetic_curve (i : nat) (sp : StationPlot) :
  wf_stations fig !! i = Some sp →
  let tr := sp_trace sp in
  let N := length (data tr) in
  ∃ g conv,
    first_item (select_station synth (station (stats tr))) = Ok g ∧
    np_convolve (data g) stf = Ok conv ∧
    length conv = (length (data g) + length stf - 1)%nat ∧
    (∀ (k : nat) (c : Q), conv !! k = Some c → (c == conv_sample (data g) stf k)%Q) ∧
    ydata (l_s sp) =
      map (fun y => np_addq y (sp_yoffset sp))
        (np_div_all (take N conv) (sp_normfac sp)) ∧
    length (ydata (l_s sp)) = (N `min` (length (data g) + length stf - 1))%nat ∧
    ((N ≤ length (data g) + length stf - 1)%nat → length (ydata (l_s sp)) = N).
Proof using Hdata Hsynth Hrun.
  intros Hi. destruct (drawn_station_facts i sp Hi)
    as (cc & g & conv & _ & _ & _ & _ & Hg & Hconv & _ & _ & _ & Hs).
  simpl. exists g, conv.
  destruct (np_convolve_Ok _ _ _ Hconv) as (_ & _ & Hlen & Hsamples).
  assert (Hl : length (ydata (l_s sp)) =
               (length (data (sp_trace sp)) `min` (length (data g) + length stf - 1))%nat).
  { rewrite Hs. simpl. unfold np_div_all, npts.
    by rewrite !length_map, length_take, Hlen. }
  repeat split; try done.
  - by rewrite Hs.
  - intros HN. rewrite Hl. lia.
Qed.

(** C3 (amended): the STF inset plots the STF samples against
    sample index times delta, shifted by the mean of all dT values
    multiplied by delta, where delta is the sample interval of the station
    drawn last (the last one in azimuth order). *)
Theorem C3_stf_inset :
  ∃ tr_last m,
    last (sort_by_azi traces) = Some tr_last ∧
    _dict_mean dT = Ok (Num m) ∧
    (m == Qsum (dict_values dT) / inject_Z (Z.of_nat (size dT)))%Q ∧
    xdata (wf_stf fig) =
      map (fun t => Num (delta (stats tr_last) * t + m * delta (stats tr_last))%Q)
          (np_arange (length stf)) ∧
    ydata (wf_stf fig) = map Num stf.
Proof using Hdata Hsynth Hrun.
  pose proof Hrun as Hr. rewrite run_eq in Hr.
  apply render_waveforms_Ok in Hr
    as (sps & lastp & m & ax & Hsps & Hlast & Hmean & _ & Hst & _ & _ & _ & Hx & Hy & _).
  rewrite last_lookup in Hlast. rewrite <- Hst in Hlast.
  destruct (drawn_station_facts _ _ Hlast)
    as (cc & g & conv & Htr & _ & _ & [dt HdT] & _).
  assert (Hne : dT ≠ ∅).
  { intros ->. by rewrite lookup_empty in HdT. }
  rewrite (_dict_mean_nonempty dT Hne) in Hmean. injection Hmean as <-.
  exists (sp_trace lastp), (Qsum (dict_values dT) / inject_Z (Z.of_nat (size dT)))%Q.
  split.
  { rewrite last_lookup, sort_by_azi_length, <- drawn_station_count. exact Htr. }
  split; [by apply _dict_mean_nonempty|].
  split; [reflexivity|].
  split; [exact Hx | exact Hy].
Qed.

(** C5 (amended): when some station of the data traces has no entry in CC,
    dA, dT or the arrival times, or no synthetic trace, [plot_waveforms]
    raises, and what it raises is a built-in exception of the pass that
    failed first: KeyError carrying the code of a station of the data set,
    IndexError (no synthetic trace) or ValueError, never an exception
    called MissingStationDataError.  When the station that fails first has
    data samples and no entry in CC, it is KeyError with that station's
    code. *)
Theorem C5_missing_station_data :
  (∀ tr, tr ∈ traces → missing_lookup arr_times CC dA dT synth tr →
     ∃ e,
       fst (plot_waveforms st_data st_synth arr_times CC CClim dA dT stf depth
              origin tensor iteration misfit h) = Raise e ∧
       (e = ValueError ∨ e = IndexError ∨
        ∃ tr', tr' ∈ traces ∧ e = KeyError (station_code tr')) ∧
       exn_class_name e ≠ "MissingStationDataError") ∧
  (∀ (k : nat) (tr : Trace),
     sort_by_azi traces !! k = Some tr →
     (∀ (j : nat) (tr' : Trace), (j < k)%nat →
        sort_by_azi traces !! j = Some tr' →
        ∃ sp, plot_station synth arr_times CC CClim dA dT stf rows
                (Z.of_nat j) tr' = Ok sp) →
     data tr ≠ [] → CC !! station_code tr = None →
     fst (plot_waveforms st_data st_synth arr_times CC CClim dA dT stf depth
            origin tensor iteration misfit h) =
     Raise (KeyError (station_code tr))).
Proof using Hdata Hsynth.
  split.
  - intros tr Hin Hmiss. rewrite run_eq. unfold render_waveforms.
    destruct (plot_stations synth arr_times CC CClim dA dT stf
                (grid_nrows (Z.of_nat (length traces))) 0 (sort_by_azi traces))
      as [sps|e] eqn:Hloop.
    + exfalso.
      assert (Hin' : tr ∈ sort_by_azi traces) by (by rewrite sort_by_azi_perm).
      destruct (plot_stations_complete _ _ _ _ _ _ _ _ _ _ _ _ Hloop Hin')
        as ([? Hcc] & [? HdA] & [? HdT] & [? Harr] & Hsel).
      destruct Hmiss as [H|[H|[H|[H|H]]]]; congruence.
    + exists e. split; [done|]. split; [|apply exn_class_builtin].
      apply plot_stations_Raise in Hloop as (k & tr' & Hk & He & _).
      apply plot_station_Raise in He as [-> | [-> | ->]]; auto.
      do 2 right. exists tr'. split; [|done].
      rewrite <- (sort_by_azi_perm traces). by eapply list_elem_of_lookup_2.
  - intros k tr Hk Hbefore Hd Hcc. rewrite run_eq. unfold render_waveforms.
    rewrite grid_nrows_sqrt.
    rewrite (plot_stations_first_failure _ _ _ _ _ _ _ _ _ 0 k tr
               (KeyError (station_code tr))); [done | done | |].
    + intros j tr' Hj Hl. rewrite Z.add_0_l. by apply Hbefore.
    + by apply plot_station_no_CC.
Qed.
End Figure.

(** ** The two marker groups of the map *)

Lemma mark_loop_from (CClim : Q) (l : list (Q * Q * Q)) :
  ∀ m : Marks,
    fold_left (mark_step CClim) l m =
    {| lats_mark1 := lats_mark1 m ++ map st_lat (filter (above CClim) l);
       lons_mark1 := lons_mark1 m ++ map st_lon (filter (above CClim) l);
       colors_mark1 := colors_mark1 m ++ map st_value (filter (above CClim) l);
       lats_mark2 := lats_mark2 m ++ map st_lat (filter (not_above CClim) l);
       lons_mark2 := lons_mark2 m ++ map st_lon (filter (not_above CClim) l);
       colors_mark2 := colors_mark2 m ++ map st_value (filter (not_above CClim) l) |}.
Proof.
  induction l as [|[[lon lat] c] l IH]; intros m; simpl.
  - rewrite !app_nil_r. by destruct m.
  - rewrite IH.
    destruct (decide (above CClim (lon, lat, c))) as [Ha|Ha].
    + rewrite (filter_cons_True (above CClim)) by done.
      rewrite (filter_cons_False (not_above CClim))
        by (unfold above, not_above in *; congruence).
      unfold above, st_value in Ha. simpl in Ha. rewrite Ha. simpl.
      by rewrite <- !app_assoc.
    + rewrite (filter_cons_False (above CClim)) by done.
      apply not_true_is_false in Ha.
      rewrite (filter_cons_True (not_above CClim)) by done.
      unfold st_value in Ha. simpl in Ha. rewrite Ha. simpl.
      by rewrite <- !app_assoc.
Qed.

Lemma mark_loop_groups (CClim : Q) (lons lats colors : list Q) :
  let stations := zip3 lons lats colors in
  mark_loop CClim lons lats colors =
  {| lats_mark1 := map st_lat (filter (above CClim) stations);
     lons_mark1 := map st_lon (filter (above CClim) stations);
     colors_mark1 := map st_value (filter (above CClim) stations);
     lats_mark2 := map st_lat (filter (not_above CClim) stations);
     lons_mark2 := map st_lon (filter (not_above CClim) stations);
     colors_mark2 := map st_value (filter (not_above CClim) stations) |}.
Proof. unfold mark_loop. by rewrite mark_loop_from. Qed.

(** The layers [add_ortho] draws are the two groups, group A first. *)
Lemma add_ortho_layers (lats lons colors : list Q) (CClim clon clat : Q)
    (marker : list string) (mA mB : string) (ax : OrthoAxes) :
  marker !! 0%nat = Some mA → marker !! 1%nat = Some mB →
  add_ortho lats lons colors CClim clon clat marker = Ok ax →
  oa_scatters ax =
    group_layer mA CClim (filter (above CClim) (zip3 lons lats colors)) ++
    group_layer mB CClim (filter (not_above CClim) (zip3 lons lats colors)).
Proof.
  intros HA HB. unfold add_ortho. rewrite mark_loop_groups. simpl.
  unfold marker_item. rewrite HA, HB. simpl.
  destruct (filter (above CClim) _) as [|a A];
    destruct (filter (not_above CClim) _) as [|b B]; simpl;
    intros [= <-]; done.
Qed.

(** The loop of [plot_map] reads one station per trace, in stream order. *)
Lemma map_columns_Ok (st_synth : list Trace) (values : gmap string Q) :
  ∀ lats lons c,
    map_columns st_synth values = Ok (lats, lons, c) →
    Forall2 (fun tr s =>
               st_lon s = stlo (stats tr) ∧ st_lat s = stla (stats tr) ∧
               values !! station_code tr = Some (st_value s))
            st_synth (zip3 lons lats c).
Proof.
  induction st_synth as [|tr rest IH]; intros lats lons c H; simpl in H.
  - injection H as <- <- <-. constructor.
  - inv_Ok H. destruct a0 as [[lats' lons'] c']. injection H as <- <- <-.
    apply getitem_Ok in Ha. simpl. constructor; [done|]. by apply IH.
Qed.

Lemma filter_partition_perm (CClim : Q) (l : list (Q * Q * Q)) :
  filter (above CClim) l ++ filter (not_above CClim) l ≡ₚ l.
Proof.
  induction l as [|s l IH]; [done|].
  destruct (decide (above CClim s)) as [Ha|Ha].
  - rewrite (filter_cons_True (above CClim)) by done.
    rewrite (filter_cons_False (not_above CClim))
      by (unfold above, not_above in *; congruence).
    simpl. by rewrite IH.
  - rewrite (filter_cons_False (above CClim)) by done.
    apply not_true_is_false in Ha.
    rewrite (filter_cons_True (not_above CClim)) by done.
    rewrite <- Permutation_middle. by rewrite IH.
Qed.

(** C8: the map renderer splits its stations (one per synthetic trace, in
    stream order) into group A, the stations whose value is strictly greater
    than the threshold, and group B, all the others.  Both groups keep the
    input's relative order, together they hold every station exactly once,
    and they are drawn with the two different markers 'o' and 'd'. *)
Theorem C8_map_partition (st_synth : list Trace) (values : gmap string Q)
    (central_longitude central_latitude CClim : Q) (ax : OrthoAxes) :
  plot_map st_synth values central_longitude central_latitude CClim = Ok ax →
  ∃ stations : list (Q * Q * Q),
    Forall2 (fun tr s =>
               st_lon s = stlo (stats tr) ∧ st_lat s = stla (stats tr) ∧
               values !! station_code tr = Some (st_value s))
            st_synth stations ∧
    let A := filter (above CClim) stations in
    let B := filter (not_above CClim) stations in
    oa_scatters ax = group_layer "o" CClim A ++ group_layer "d" CClim B ∧
    (∀ s, s ∈ stations → (s ∈ A ↔ (CClim < st_value s)%Q)) ∧
    (∀ s, s ∈ stations → (s ∈ B ↔ (st_value s <= CClim)%Q)) ∧
    (∀ s, s ∈ stations → (s ∈ A ∧ s ∉ B) ∨ (s ∈ B ∧ s ∉ A)) ∧
    A ++ B ≡ₚ stations ∧
    (length A + length B = length stations)%nat ∧
    A `sublist_of` stations ∧ B `sublist_of` stations ∧
    "o" ≠ "d".
Proof.
  unfold plot_map. intros H. inv_Ok H. destruct a as [[lats lons] c].
  exists (zip3 lons lats c).
  split; [by apply map_columns_Ok|].
  split.
  { by apply (add_ortho_layers lats lons c CClim central_longitude
                central_latitude ["o"; "d"]). }
  assert (HA : ∀ s, s ∈ filter (above CClim) (zip3 lons lats c) ↔
                    (CClim < st_value s)%Q ∧ s ∈ zip3 lons lats c).
  { intros s. rewrite list_elem_of_filter. unfold above. by rewrite Qltb_lt. }
  assert (HB : ∀ s, s ∈ filter (not_above CClim) (zip3 lons lats c) ↔
                    (st_value s <= CClim)%Q ∧ s ∈ zip3 lons lats c).
  { intros s. rewrite list_elem_of_filter. unfold not_above. by rewrite Qltb_ge. }
  split; [intros s Hs; rewrite HA; tauto|].
  split; [intros s Hs; rewrite HB; tauto|].
  split.
  { intros s Hs. rewrite HA, HB.
    destruct (Qlt_le_dec CClim (st_value s)) as [Hlt|Hle].
    - left. split; [done|]. intros [Hle _]. by apply Qle_not_lt in Hle.
    - right. split; [done|]. intros [Hlt _]. by apply Qle_not_lt in Hle. }
  split; [apply filter_partition_perm|].
  split.
  { rewrite <- length_app. apply Permutation_length, filter_partition_perm. }
  split; [apply sublist_filter; apply _|].
  split; [apply sublist_filter; apply _|].
  done.
Qed.

(** ** The caller's objects *)

(** Whatever the call returns or raises, the store it leaves is the store it
    found plus the sorted copy. *)
Lemma plot_waveforms_store (h : heap) (st_data st_synth : loc)
    (arr_times CC : gmap string Q) (CClim : Q) (dA dT : gmap string Q)
    (stf : list Q) (depth : Z) (origin : Origin) (tensor : MomentTensor)
    (iteration : Z) (misfit : Q) :
  snd (plot_waveforms st_data st_synth arr_times CC CClim dA dT stf depth
         origin tensor iteration misfit h) = store_after h st_data.
Proof.
  unfold plot_waveforms, store_after, mbind, M_bind, stream_len, stream_copy,
    stream_sort, stream_traces, lift_result. simpl.
  rewrite insert_insert_eq. by rewrite lookup_total_insert_eq.
Qed.

Lemma store_after_allocated (h : heap) (st_data l : loc) (st : list Trace) :
  h !! l = Some st → store_after h st_data !! l = Some st.
Proof.
  intros Hl. unfold store_after. rewrite lookup_insert_ne; [done|].
  intros <-. by rewrite fresh_not_allocated in Hl.
Qed.

(** Had the stream itself been sorted, the caller would see it: in the
    scenario the data stream is not in azimuth order. *)
Lemma stream_sort_in_place_mutates :
  snd (stream_sort Scenario.st_data Scenario.store) !! Scenario.st_data ≠
  Scenario.store !! Scenario.st_data.
Proof. vm_compute. discriminate. Qed.

(** C10: a call of [plot_waveforms], whether it returns or raises, leaves
    every object the caller holds as it was: the data stream and the
    synthetic stream keep their traces in their order, because the sort runs
    on a copy, the one object the call adds to the store.  (The mappings, the
    STF and the tensor are only read: they are values the call cannot
    write.) *)
Theorem C10_inputs_not_mutated (h : heap) (st_data st_synth : loc)
    (arr_times CC : gmap string Q) (CClim : Q) (dA dT : gmap string Q)
    (stf : list Q) (depth : Z) (origin : Origin) (tensor : MomentTensor)
    (iteration : Z) (misfit : Q) (traces synth : list Trace) :
  h !! st_data = Some traces → h !! st_synth = Some synth →
  let h' := snd (plot_waveforms st_data st_synth arr_times CC CClim dA dT stf
                   depth origin tensor iteration misfit h) in
  h' !! st_data = Some traces ∧
  h' !! st_synth = Some synth ∧
  (∀ (l : loc) (st : list Trace), h !! l = Some st → h' !! l = Some st) ∧
  h' = <[fresh (dom h) := sort_by_azi traces]> h ∧
  h !! fresh (dom h) = None.
Proof.
  intros Hdata Hsynth h'. subst h'. rewrite plot_waveforms_store.
  split; [by apply store_after_allocated|].
  split; [by apply store_after_allocated|].
  split; [intros l st; apply store_after_allocated|].
  split; [|apply fresh_not_allocated].
  unfold store_after. by rewrite (lookup_total_correct _ _ _ Hdata).
Qed.

Lemma C10_inputs_not_mutated_witness :
  snd (Scenario.run Scenario.store) !! Scenario.st_data =
    Some [Scenario.data_A; Scenario.data_B; Scenario.data_C].
Proof.
  apply (C10_inputs_not_mutated Scenario.store Scenario.st_data Scenario.st_synth
           Scenario.arr_times Scenario.CC Scenario.CClim Scenario.dA Scenario.dT
           Scenario.stf 1000 Scenario.origin Scenario.tensor 3 0
           [Scenario.data_A; Scenario.data_B; Scenario.data_C]
           [Scenario.green_A; Scenario.green_B; Scenario.green_C]);
    reflexivity.
Defined.

(** C2, as claimed, fails when the Green's function is short: with three
    data samples, one Green's-function sample and a one-sample STF the full
    convolution has one sample, and so has the synthetic curve. *)
Lemma C2_counterexample_short_green :
  ∃ fig sp,
    fst ShortGreen.run = Ok fig ∧ wf_stations fig = [sp] ∧
    length (data (sp_trace sp)) = 3%nat ∧
    length (ydata (l_s sp)) = 1%nat ∧
    length (ydata (l_s sp)) ≠ length (data (sp_trace sp)).
Proof.
  eexists. eexists. split; [vm_compute; reflexivity|].
  split; [reflexivity|]. vm_compute. repeat split; congruence.
Qed.

(** C6, as claimed, fails on a silent station: the factor is 0, every
    normalized data sample is 0/0, and no sample has absolute value 1. *)
Lemma C6_counterexample_silent_trace :
  ∃ fig sp,
    fst Silent.run = Ok fig ∧ wf_stations fig = [sp] ∧
    sp_normfac sp = 0%Q ∧
    np_div_all (data (sp_trace sp)) (sp_normfac sp) = [NaN; NaN] ∧
    ydata (l_d sp) = [NaN; NaN] ∧
    ¬ max_abs_is (np_div_all (data (sp_trace sp)) (sp_normfac sp)) 1.
Proof.
  eexists. eexists. split; [vm_compute; reflexivity|].
  split; [reflexivity|].
  split; [reflexivity|]. split; [reflexivity|]. split; [reflexivity|].
  intros [(q & Hq & _) _]. vm_compute in Hq.
  apply elem_of_cons in Hq as [Hq|Hq]; [discriminate|].
  apply elem_of_cons in Hq as [Hq|Hq]; [discriminate|].
  by apply elem_of_nil in Hq.
Qed.

(** C3, as claimed, fails in the scenario: the mean of dT is 2 and delta is
    1/2, and the first STF sample is drawn at x = 1 = 2 * 1/2, not at
    x = 0 * 1/2 + 2. *)
Lemma C3_counterexample_mean_times_delta :
  ∃ fig m x0,
    fst (Scenario.run Scenario.store) = Ok fig ∧
    _dict_mean Scenario.dT = Ok (Num m) ∧ (m == 2)%Q ∧
    xdata (wf_stf fig) !! 0%nat = Some (Num x0) ∧ (x0 == 1)%Q ∧
    ¬ (x0 == 0 * (1 # 2) + m)%Q.
Proof.
  eexists. eexists. eexists. split; [vm_compute; reflexivity|].
  split; [vm_compute; reflexivity|].
  split; [reflexivity|]. split; [reflexivity|]. split; [reflexivity|].
  vm_compute. discriminate.
Qed.

(** C5, as claimed, fails in the scenario without the CC entry of station
    A: the call raises KeyError('A.00'), Python's own lookup failure. *)
Lemma C5_counterexample_missing_CC :
  let r := fst (plot_waveforms Scenario.st_data Scenario.st_synth
                  Scenario.arr_times (delete "A.00" Scenario.CC) Scenario.CClim
                  Scenario.dA Scenario.dT Scenario.stf 1000 Scenario.origin
                  Scenario.tensor 3 0 Scenario.store) in
  r = Raise (KeyError "A.00") ∧
  exn_class_name (KeyError "A.00") = "KeyError" ∧
  ¬ ∃ e, r = Raise e ∧ exn_class_name e = "MissingStationDataError".
Proof.
  assert (E : fst (plot_waveforms Scenario.st_data Scenario.st_synth
                  Scenario.arr_times (delete "A.00" Scenario.CC) Scenario.CClim
                  Scenario.dA Scenario.dT Scenario.stf 1000 Scenario.origin
                  Scenario.tensor 3 0 Scenario.store) = Raise (KeyError "A.00"))
    by (vm_compute; reflexivity).
  intros r. subst r. rewrite E. split; [done|]. split; [done|].
  intros (e & [= <-] & He). discriminate He.
Qed.

(** ** The theorems at the scenario *)

Lemma C9_cell_placement_witness :
  ∃ fig sp,
    fst (Scenario.run Scenario.store) = Ok fig ∧
    wf_stations fig !! 2%nat = Some sp ∧
    length (wf_stations fig) = 3%nat ∧
    station (stats (sp_trace sp)) = "A" ∧
    sp_irow sp = 0 ∧ sp_icol sp = 1 ∧
    xdata (l_d sp) = map (fun x => Num (x + 1)%Q) (np_linspace0 (4 # 5) 3) ∧
    ydata (l_d sp) =
      map (fun y => np_addq (np_div y 2) (0 * (3 # 2))%Q) [1; -2; 1]%Q.
Proof.
  eexists. eexists. split; [vm_compute; reflexivity|].
  match goal with |- context [wf_stations ?f] => pose (fig := f) end.
  split; [reflexivity|].
  match goal with |- context [sp_trace ?s] => pose (sp := s) end.
  destruct (C9_cell_placement Scenario.store Scenario.st_data Scenario.st_synth
              Scenario.arr_times Scenario.CC Scenario.CClim Scenario.dA Scenario.dT
              Scenario.stf 1000 Scenario.origin Scenario.tensor 3 0
              [Scenario.data_A; Scenario.data_B; Scenario.data_C]
              [Scenario.green_A; Scenario.green_B; Scenario.green_C]
              fig eq_refl eq_refl ltac:(vm_compute; reflexivity))
    as (_ & _ & Hlen & Hcell & _).
  destruct (Hcell 2%nat sp eq_refl)
    as (_ & Hrow & Hcol & _ & _ & _ & g & conv & _ & _ & Hxd & Hyd & _).
  split; [exact Hlen|]. split; [reflexivity|].
  split; [exact Hrow|]. split; [exact Hcol|].
  split; [exact Hxd | exact Hyd].
Defined.

(** The figure and the station plot a goal speaks of, once computed. *)
Ltac name_figure fig :=
  match goal with |- context [wf_stations ?f] => pose (fig := f) end.
Ltac name_station sp :=
  match goal with |- context [sp_trace ?s] => pose (sp := s) end.

Lemma C7_line_style_witness :
  ∃ fig sp,
    fst (Scenario.run Scenario.store) = Ok fig ∧
    wf_stations fig !! 2%nat = Some sp ∧
    ∃ cc, Scenario.CC !! station_code (sp_trace sp) = Some cc ∧
      linestyle (l_d sp) = (if Qltb Scenario.CClim cc then Solid else Dotted).
Proof.
  eexists. eexists. split; [vm_compute; reflexivity|]. name_figure fig.
  split; [reflexivity|]. name_station sp.
  destruct (C7_line_style Scenario.store Scenario.st_data Scenario.st_synth
              Scenario.arr_times Scenario.CC Scenario.CClim Scenario.dA Scenario.dT
              Scenario.stf 1000 Scenario.origin Scenario.tensor 3 0
              [Scenario.data_A; Scenario.data_B; Scenario.data_C]
              [Scenario.green_A; Scenario.green_B; Scenario.green_C]
              fig eq_refl eq_refl ltac:(vm_compute; reflexivity) 2%nat sp eq_refl)
    as (cc & Hcc & Hls & _).
  exists cc. split; [exact Hcc | exact Hls].
Defined.

Lemma C6_shared_normalization_witness :
  ∃ fig sp,
    fst (Scenario.run Scenario.store) = Ok fig ∧
    wf_stations fig !! 0%nat = Some sp ∧
    py_max (np_abs (data (sp_trace sp))) = Ok (sp_normfac sp) ∧
    max_abs_is (np_div_all (data (sp_trace sp)) (sp_normfac sp)) 1.
Proof.
  eexists. eexists. split; [vm_compute; reflexivity|]. name_figure fig.
  split; [reflexivity|]. name_station sp.
  destruct (C6_shared_normalization Scenario.store Scenario.st_data Scenario.st_synth
              Scenario.arr_times Scenario.CC Scenario.CClim Scenario.dA Scenario.dT
              Scenario.stf 1000 Scenario.origin Scenario.tensor 3 0
              [Scenario.data_A; Scenario.data_B; Scenario.data_C]
              [Scenario.green_A; Scenario.green_B; Scenario.green_C]
              fig eq_refl eq_refl ltac:(vm_compute; reflexivity) 0%nat sp eq_refl)
    as (Hmax & _ & _ & _ & Hone).
  split; [exact Hmax|]. apply Hone. vm_compute. discriminate.
Defined.

Lemma C2_synthetic_curve_witness :
  ∃ fig sp,
    fst (Scenario.run Scenario.store) = Ok fig ∧
    wf_stations fig !! 0%nat = Some sp ∧
    length (data (sp_trace sp)) = 4%nat ∧
    length (ydata (l_s sp)) = 4%nat.
Proof.
  eexists. eexists. split; [vm_compute; reflexivity|]. name_figure fig.
  split; [reflexivity|]. name_station sp.
  destruct (C2_synthetic_curve Scenario.store Scenario.st_data Scenario.st_synth
              Scenario.arr_times Scenario.CC Scenario.CClim Scenario.dA Scenario.dT
              Scenario.stf 1000 Scenario.origin Scenario.tensor 3 0
              [Scenario.data_A; Scenario.data_B; Scenario.data_C]
              [Scenario.green_A; Scenario.green_B; Scenario.green_C]
              fig eq_refl eq_refl ltac:(vm_compute; reflexivity) 0%nat sp eq_refl)
    as (g & conv & Hg & Hconv & _ & _ & _ & _ & Hlen).
  split; [reflexivity|]. apply Hlen.
  vm_compute in Hg. injection Hg as <-. vm_compute. lia.
Defined.

Lemma C3_stf_inset_witness :
  ∃ fig tr_last m,
    fst (Scenario.run Scenario.store) = Ok fig ∧
    last (sort_by_azi [Scenario.data_A; Scenario.data_B; Scenario.data_C]) = Some tr_last ∧
    xdata (wf_stf fig) =
      map (fun t => Num (delta (stats tr_last) * t + m * delta (stats tr_last))%Q)
          (np_arange (length Scenario.stf)).
Proof.
  eexists.
  edestruct (C3_stf_inset Scenario.store Scenario.st_data Scenario.st_synth
               Scenario.arr_times Scenario.CC Scenario.CClim Scenario.dA Scenario.dT
               Scenario.stf 1000 Scenario.origin Scenario.tensor 3 0
               [Scenario.data_A; Scenario.data_B; Scenario.data_C]
               [Scenario.green_A; Scenario.green_B; Scenario.green_C])
    as (tr_last & m & Hlast & _ & _ & Hx & _);
    [reflexivity | reflexivity | vm_compute; reflexivity |].
  exists tr_last, m. split; [vm_compute; reflexivity|].
  split; [exact Hlast | exact Hx].
Defined.

Lemma C5_missing_station_data_witness :
  ∃ e,
    fst (plot_waveforms Scenario.st_data Scenario.st_synth Scenario.arr_times
           (delete "A.00" Scenario.CC) Scenario.CClim Scenario.dA Scenario.dT
           Scenario.stf 1000 Scenario.origin Scenario.tensor 3 0 Scenario.store) =
    Raise e ∧
    exn_class_name e ≠ "MissingStationDataError".
Proof.
  destruct (C5_missing_station_data Scenario.store Scenario.st_data Scenario.st_synth
              Scenario.arr_times (delete "A.00" Scenario.CC) Scenario.CClim
              Scenario.dA Scenario.dT Scenario.stf 1000 Scenario.origin
              Scenario.tensor 3 0
              [Scenario.data_A; Scenario.data_B; Scenario.data_C]
              [Scenario.green_A; Scenario.green_B; Scenario.green_C]
              eq_refl eq_refl) as [H _].
  destruct (H Scenario.data_A) as (e & He & _ & Hc).
  - left.
  - left. vm_compute. reflexivity.
  - exists e. split; [exact He | exact Hc].
Defined.

Lemma C8_map_partition_witness :
  ∃ ax stations,
    plot_map [Scenario.green_A; Scenario.green_B; Scenario.green_C] Scenario.CC
      5 45 Scenario.CClim = Ok ax ∧
    oa_scatters ax =
      group_layer "o" Scenario.CClim (filter (above Scenario.CClim) stations) ++
      group_layer "d" Scenario.CClim (filter (not_above Scenario.CClim) stations).
Proof.
  eexists.
  edestruct (C8_map_partition [Scenario.green_A; Scenario.green_B; Scenario.green_C]
               Scenario.CC 5 45 Scenario.CClim)
    as (stations & _ & Hlayers & _);
    [vm_compute; reflexivity|].
  exists stations. split; [vm_compute; reflexivity | exact Hlayers].
Defined.

(** * Further properties *)

(** ** The map: what is drawn and when it fails *)

Lemma zip3_length (lons lats colors : list Q) :
  length (zip3 lons lats colors) =
  ((length lons `min` length lats) `min` length colors)%nat.
Proof.
  revert lats colors.
  induction lons as [|lon lons IH]; intros [|lat lats] [|c colors]; simpl; try lia.
  rewrite IH. lia.
Qed.

Lemma zip3_columns (G : list (Q * Q * Q)) :
  zip3 (map st_lon G) (map st_lat G) (map st_value G) = G.
Proof.
  induction G as [|[[lon lat] c] G IH]; simpl; [done|]. by rewrite IH.
Qed.

(** The outcome of [add_ortho], read off the two groups. *)
Lemma add_ortho_outcome (lats lons colors : list Q) (CClim clon clat : Q)
    (marker : list string) :
  let A := filter (above CClim) (zip3 lons lats colors) in
  let B := filter (not_above CClim) (zip3 lons lats colors) in
  add_ortho lats lons colors CClim clon clat marker =
  (scatter1 ← (match A with
               | [] => Ok None
               | _ => mk ← marker_item marker 0;
                      Ok (Some {| sc_lons := map st_lon A; sc_lats := map st_lat A;
                                  sc_c := map st_value A; sc_marker := mk;
                                  sc_vmin := CClim; sc_vmax := 1 |})
               end);
   scatter2 ← (match B with
               | [] => Ok None
               | _ => mk ← marker_item marker 1;
                      Ok (Some {| sc_lons := map st_lon B; sc_lats := map st_lat B;
                                  sc_c := map st_value B; sc_marker := mk;
                                  sc_vmin := CClim; sc_vmax := 1 |})
               end);
   scatter ← match scatter2, scatter1 with
             | Some s, _ => Ok s
             | None, Some s => Ok s
             | None, None => Raise (UnboundLocalError "scatter")
             end;
   Ok {| oa_central_longitude := clon; oa_central_latitude := clat;
         oa_scatters := option_list scatter1 ++ option_list scatter2;
         oa_colorbar := scatter; oa_star := (clon, clat) |}).
Proof.
  intros A B. unfold add_ortho. rewrite mark_loop_groups. simpl.
  fold A B. by destruct A, B.
Qed.

(** X1: [add_ortho] needs a station.  With no station to draw (an empty
    list among [lons], [lats], [colors]) no scatter layer is made and the
    colorbar line raises UnboundLocalError for [scatter]; with at least one
    station and two markers it returns.  So [plot_map] on an empty stream
    raises that error. *)
Theorem X1_add_ortho_needs_station (lats lons colors : list Q)
    (CClim clon clat : Q) (marker : list string) (mA mB : string) :
  marker !! 0%nat = Some mA → marker !! 1%nat = Some mB →
  (zip3 lons lats colors = [] →
     add_ortho lats lons colors CClim clon clat marker =
     Raise (UnboundLocalError "scatter")) ∧
  (zip3 lons lats colors ≠ [] →
     ∃ ax, add_ortho lats lons colors CClim clon clat marker = Ok ax) ∧
  (∀ values, plot_map [] values clon clat CClim = Raise (UnboundLocalError "scatter")).
Proof.
  intros HA HB. rewrite add_ortho_outcome. unfold marker_item. rewrite HA, HB.
  split; [|split].
  - intros ->. reflexivity.
  - intros Hne.
    pose proof (filter_partition_perm CClim (zip3 lons lats colors)) as Hp.
    destruct (filter (above CClim) (zip3 lons lats colors)) as [|a A];
      destruct (filter (not_above CClim) (zip3 lons lats colors)) as [|b B];
      simpl; eauto.
    exfalso. apply Hne. by apply Permutation_nil.
  - reflexivity.
Qed.

Lemma X1_add_ortho_needs_station_witness :
  add_ortho [] [] [] (1 # 2) 5 45 ["o"; "d"] = Raise (UnboundLocalError "scatter").
Proof.
  apply (X1_add_ortho_needs_station [] [] [] (1 # 2) 5 45 ["o"; "d"] "o" "d");
    reflexivity.
Defined.

(** X2: the colorbar of the map hangs on the scatter layer drawn last: on
    group B's layer whenever some station is at or below the threshold, on
    group A's layer only when every station is above it. *)
Theorem X2_colorbar_on_last_layer (lats lons colors : list Q)
    (CClim clon clat : Q) (marker : list string) (ax : OrthoAxes) :
  add_ortho lats lons colors CClim clon clat marker = Ok ax →
  let A := filter (above CClim) (zip3 lons lats colors) in
  let B := filter (not_above CClim) (zip3 lons lats colors) in
  last (oa_scatters ax) = Some (oa_colorbar ax) ∧
  (B ≠ [] → sc_c (oa_colorbar ax) = map st_value B ∧
            marker !! 1%nat = Some (sc_marker (oa_colorbar ax))) ∧
  (B = [] → sc_c (oa_colorbar ax) = map st_value A ∧
            marker !! 0%nat = Some (sc_marker (oa_colorbar ax))).
Proof.
  intros H A B. rewrite add_ortho_outcome in H. unfold marker_item in H.
  fold A B in H.
  destruct A as [|a A'], B as [|b B']; simpl in H; try discriminate H.
  - destruct (marker !! 1%nat) as [mB|] eqn:HB; [|discriminate H].
    injection H as <-. simpl. repeat split; done.
  - destruct (marker !! 0%nat) as [mA|] eqn:HA; [|discriminate H].
    injection H as <-. simpl. repeat split; done.
  - destruct (marker !! 0%nat) as [mA|] eqn:HA; [|discriminate H]. simpl in H.
    destruct (marker !! 1%nat) as [mB|] eqn:HB; [|discriminate H].
    injection H as <-. simpl. repeat split; done.
Qed.

Lemma X2_colorbar_on_last_layer_witness :
  ∃ ax,
    add_ortho [10; 10]%Q [20; 20]%Q [9 # 10; 3 # 10]%Q (1 # 2) 5 45 ["o"; "d"] = Ok ax ∧
    last (oa_scatters ax) = Some (oa_colorbar ax).
Proof.
  eexists. split; [vm_compute; reflexivity|].
  eapply (X2_colorbar_on_last_layer [10; 10]%Q [20; 20]%Q [9 # 10; 3 # 10]%Q
            (1 # 2) 5 45 ["o"; "d"]).
  vm_compute. reflexivity.
Defined.

Lemma group_layer_count (mk : string) (CClim : Q) (G : list (Q * Q * Q)) :
  sum_list_with (fun layer => length (sc_lons layer)) (group_layer mk CClim G) =
  length G.
Proof.
  destruct G as [|s G]; [done|]. simpl. rewrite length_map. lia.
Qed.

Lemma group_layer_columns (mk : string) (CClim : Q) (G : list (Q * Q * Q))
    (layer : Scatter) :
  layer ∈ group_layer mk CClim G →
  sc_marker layer = mk ∧
  zip3 (sc_lons layer) (sc_lats layer) (sc_c layer) = G ∧
  length (sc_lats layer) = length (sc_lons layer) ∧
  length (sc_c layer) = length (sc_lons layer).
Proof.
  destruct G as [|s G]; [intros H; by apply elem_of_nil in H|].
  intros H. apply list_elem_of_singleton in H as ->.
  cbn [sc_marker sc_lons sc_lats sc_c].
  rewrite zip3_columns, !length_map. done.
Qed.

(** X3: the map draws as many stations as the shortest of [lons], [lats],
    [colors] has entries ([zip] stops at the shortest argument, entries
    beyond it are dropped without an error), and every layer has one
    latitude and one colour per longitude. *)
Theorem X3_markers_drawn (lats lons colors : list Q)
    (CClim clon clat : Q) (marker : list string) (ax : OrthoAxes) :
  add_ortho lats lons colors CClim clon clat marker = Ok ax →
  markers_drawn ax = ((length lons `min` length lats) `min` length colors)%nat ∧
  ∀ layer, layer ∈ oa_scatters ax →
    length (sc_lats layer) = length (sc_lons layer) ∧
    length (sc_c layer) = length (sc_lons layer).
Proof.
  intros H.
  assert (∃ mA mB,
    oa_scatters ax =
      group_layer mA CClim (filter (above CClim) (zip3 lons lats colors)) ++
      group_layer mB CClim (filter (not_above CClim) (zip3 lons lats colors)))
    as (mA & mB & Hl).
  { rewrite add_ortho_outcome in H. unfold marker_item in H.
    destruct (filter (above CClim) (zip3 lons lats colors)) as [|a A];
      destruct (filter (not_above CClim) (zip3 lons lats colors)) as [|b B];
      simpl in H; try discriminate H;
      repeat match type of H with
      | context [marker !! ?i] => destruct (marker !! i) as [?m|]; simpl in H;
                                  [|discriminate H]
      end; injection H as <-; simpl.
    - by exists m, m.
    - by exists m, m.
    - by exists m, m0. }
  split.
  - unfold markers_drawn. rewrite Hl, sum_list_with_app, !group_layer_count.
    rewrite <- length_app, <- zip3_length.
    apply Permutation_length, filter_partition_perm.
  - intros layer Hin. rewrite Hl in Hin.
    apply elem_of_app in Hin as [Hin|Hin];
      apply group_layer_columns in Hin as (_ & _ & H1 & H2); done.
Qed.

Lemma X3_markers_drawn_witness :
  ∃ ax,
    add_ortho [10; 10; 10]%Q [20; 20]%Q [9 # 10; 3 # 10; 1]%Q (1 # 2) 5 45 ["o"; "d"] = Ok ax ∧
    markers_drawn ax = 2%nat.
Proof.
  eexists. split; [vm_compute; reflexivity|].
  eapply (X3_markers_drawn [10; 10; 10]%Q [20; 20]%Q [9 # 10; 3 # 10; 1]%Q
            (1 # 2) 5 45 ["o"; "d"]).
  vm_compute. reflexivity.
Defined.

(** X4: a marker is only looked up for a group that has stations.  A
    one-entry marker list is enough when every station is above the
    threshold; as soon as one station is at or below it, [marker[1]] raises
    IndexError. *)
Theorem X4_marker_lookup (lats lons colors : list Q)
    (CClim clon clat : Q) (marker : list string) (mA : string) :
  marker !! 0%nat = Some mA → marker !! 1%nat = None →
  let A := filter (above CClim) (zip3 lons lats colors) in
  let B := filter (not_above CClim) (zip3 lons lats colors) in
  (B ≠ [] → add_ortho lats lons colors CClim clon clat marker = Raise IndexError) ∧
  (B = [] → A ≠ [] →
     ∃ ax, add_ortho lats lons colors CClim clon clat marker = Ok ax ∧
       oa_scatters ax = group_layer mA CClim A).
Proof.
  intros HA HB A B. rewrite add_ortho_outcome. unfold marker_item.
  rewrite HA, HB. fold A B.
  destruct A as [|a A'], B as [|b B']; simpl; split; try done.
  intros _ _. eexists. split; reflexivity.
Qed.

Lemma X4_marker_lookup_witness :
  add_ortho [10; 10]%Q [20; 20]%Q [9 # 10; 3 # 10]%Q (1 # 2) 5 45 ["o"] = Raise IndexError.
Proof.
  apply (X4_marker_lookup [10; 10]%Q [20; 20]%Q [9 # 10; 3 # 10]%Q
           (1 # 2) 5 45 ["o"] "o"); [reflexivity | reflexivity |].
  vm_compute. discriminate.
Defined.

(** The columns of a stream whose traces all have a value. *)
Lemma map_columns_total (st_synth : list Trace) (values : gmap string Q) :
  Forall (fun s => is_Some (values !! station_code s)) st_synth →
  ∃ lats lons c,
    map_columns st_synth values = Ok (lats, lons, c) ∧
    length (zip3 lons lats c) = length st_synth.
Proof.
  induction 1 as [|s rest [v Hv] _ (lats & lons & c & Hcols & Hlen)]; simpl.
  - by exists [], [], [].
  - unfold getitem. rewrite Hv. simpl. rewrite Hcols. simpl.
    eexists _, _, _. split; [reflexivity|]. simpl. by rewrite Hlen.
Qed.

(** X5: [plot_map] looks up [values[code]] for every trace of the stream,
    in stream order, before anything is drawn: the first trace whose code is
    not a key of [values] ends the call with KeyError carrying that code. *)
Theorem X5_plot_map_missing_value (pre post : list Trace) (s : Trace)
    (values : gmap string Q) (clon clat CClim : Q) :
  Forall (fun t => is_Some (values !! station_code t)) pre →
  values !! station_code s = None →
  plot_map (pre ++ s :: post) values clon clat CClim =
  Raise (KeyError (station_code s)).
Proof.
  intros Hpre Hs. unfold plot_map.
  assert (Hcols : map_columns (pre ++ s :: post) values =
                  Raise (KeyError (station_code s))).
  { induction Hpre as [|t pre [v Hv] _ IH]; simpl.
    - unfold getitem. by rewrite Hs.
    - unfold getitem. rewrite Hv. simpl. by rewrite IH. }
  by rewrite Hcols.
Qed.

Lemma X5_plot_map_missing_value_witness :
  plot_map [Scenario.green_A; Scenario.green_B; Scenario.green_C]
    (delete "B.00" Scenario.CC) 5 45 Scenario.CClim = Raise (KeyError "B.00").
Proof.
  apply (X5_plot_map_missing_value [Scenario.green_A] [Scenario.green_C]
           Scenario.green_B (delete "B.00" Scenario.CC) 5 45 Scenario.CClim).
  - repeat constructor. eexists. vm_compute. reflexivity.
  - vm_compute. reflexivity.
Defined.

(** ** The output file *)

Lemma string_length_app (s t : string) :
  String.length (s +:+ t) = (String.length s + String.length t)%nat.
Proof. induction s as [|c s IH]; simpl; [done | by rewrite IH]. Qed.

Lemma string_app_inj_r (t : string) :
  ∀ s1 s2 : string, s1 +:+ t = s2 +:+ t → s1 = s2.
Proof.
  induction s1 as [|c s1 IH]; intros [|c' s2] H; simpl in H.
  - done.
  - exfalso. apply (f_equal String.length) in H. simpl in H.
    rewrite !string_length_app in H. simpl in H. lia.
  - exfalso. apply (f_equal String.length) in H. simpl in H.
    rewrite !string_length_app in H. simpl in H. lia.
  - injection H as -> H. f_equal. by apply IH.
Qed.

Lemma string_app_assoc (s t u : string) : (s +:+ t) +:+ u = s +:+ t +:+ u.
Proof.
  induction s as [|c s IH]; [done|].
  change (String c ((s +:+ t) +:+ u) = String c (s +:+ t +:+ u)).
  by rewrite IH.
Qed.

Lemma waveform_outfile_shape (outdir : string) (iteration : Z) :
  waveform_outfile outdir iteration =
  join_prefix outdir +:+ "waveforms_it_" +:+ format_d iteration +:+ ".png".
Proof.
  unfold waveform_outfile, os_path_join, join_prefix. simpl.
  destruct (String.eqb outdir "" || ends_with_sep outdir); [done|].
  by rewrite string_app_assoc.
Qed.

(** X7: the figure of iteration [i] is written to
    [<outdir>/waveforms_it_<i>.png], [i] in decimal with its sign; for one
    output directory two different iterations never share a file name, so no
    call overwrites the figure of another iteration. *)
Theorem X7_outfile_per_iteration (outdir : string) (i j : Z) :
  i ≠ j →
  waveform_outfile outdir i ≠ waveform_outfile outdir j ∧
  waveform_outfile outdir i =
    join_prefix outdir +:+ "waveforms_it_" +:+ format_d i +:+ ".png".
Proof.
  intros Hne. split; [|apply waveform_outfile_shape].
  rewrite !waveform_outfile_shape. intros H.
  apply (inj (String.app _)) in H.
  apply (inj (String.app "waveforms_it_")) in H.
  apply string_app_inj_r in H. unfold format_d in H.
  by apply (inj pretty) in H.
Qed.

Lemma X7_outfile_per_iteration_witness :
  waveform_outfile "./waveforms/" (-1) ≠ waveform_outfile "./waveforms/" 0 ∧
  waveform_outfile "./waveforms/" (-1) = "./waveforms/waveforms_it_-1.png".
Proof.
  destruct (X7_outfile_per_iteration "./waveforms/" (-1) 0 ltac:(lia)) as [H1 H2].
  split; [exact H1|]. rewrite H2. vm_compute. reflexivity.
Defined.

(** ** The labels of the map *)

Section LabelFacts.
Variable locations2degrees : Q → Q → Q → Q → Q.
Variables central_latitude central_longitude : Q.

Local Abbreviation step := (label_step locations2degrees central_latitude central_longitude).

Lemma label_loop_elem (items : list (Q * Q * string)) :
  ∀ (acc : list (Q * Q * string)) (lon lat : Q) (t : string),
    (lon, lat, t) ∈ fold_left step items acc ↔
    (lon, lat, t) ∈ acc ∨
    ((lat, lon, t) ∈ items ∧
     (locations2degrees lat lon central_latitude central_longitude < 90)%Q).
Proof.
  induction items as [|[[lat' lon'] t'] items IH]; intros acc lon lat t; simpl.
  - split; [auto|]. intros [H|[H _]]; [done|]. by apply elem_of_nil in H.
  - rewrite IH.
    destruct (Qltb (locations2degrees lat' lon' central_latitude central_longitude) 90)
      eqn:E.
    + apply Qltb_lt in E. rewrite elem_of_app, list_elem_of_singleton, elem_of_cons.
      split.
      * intros [[H|[= -> -> ->]]|[H1 H2]]; auto.
      * intros [H|[[[= -> -> ->]|H1] H2]]; auto.
    + apply Qltb_ge in E. rewrite elem_of_cons. split.
      * intros [H|[H1 H2]]; auto.
      * intros [H|[[[= -> -> ->]|H1] H2]]; auto.
        exfalso. by apply Qle_not_lt in E.
Qed.

Lemma label_loop_length (items : list (Q * Q * string)) :
  ∀ acc, (length (fold_left step items acc) ≤ length acc + length items)%nat.
Proof.
  induction items as [|[[lat lon] t] items IH]; intros acc; simpl; [lia|].
  destruct (Qltb _ 90).
  - etrans; [apply IH|]. rewrite length_app. simpl. lia.
  - etrans; [apply IH|]. lia.
Qed.

Lemma zip_labels_length (lats lons : list Q) (ts : list string) :
  (length (zip_labels lats lons ts) ≤ length ts)%nat.
Proof.
  revert lons ts. induction lats as [|lat lats IH]; intros [|lon lons] [|t ts];
    simpl; try lia.
  specialize (IH lons ts). lia.
Qed.

(** X8: the optional labels of the map.  A label is drawn, at its point,
    exactly for the points (of the zipped [lats], [lons], [text]) that are
    strictly less than 90 degrees from the projection centre; a point at
    exactly 90 degrees, or beyond, is not labelled; without [text] (or with
    an empty one) nothing is drawn; and there are never more labels than
    texts. *)
Theorem X8_labels_near_side (lats lons : list Q) (text : option (list string))
    (lon lat : Q) (t : string) :
  ((lon, lat, t) ∈ draw_labels locations2degrees lats lons text
                     central_latitude central_longitude ↔
   ∃ ts, text = Some ts ∧ (lat, lon, t) ∈ zip_labels lats lons ts ∧
     (locations2degrees lat lon central_latitude central_longitude < 90)%Q) ∧
  (∀ ts, text = Some ts →
     (length (draw_labels locations2degrees lats lons text
                central_latitude central_longitude) ≤ length ts)%nat) ∧
  draw_labels locations2degrees lats lons None central_latitude central_longitude = [].
Proof.
  split; [|split; [|done]].
  - destruct text as [[|t0 ts]|]; simpl.
    + split; [intros H; by apply elem_of_nil in H|].
      intros (ts & [= <-] & H & _). destruct lats, lons; by apply elem_of_nil in H.
    + rewrite label_loop_elem. split.
      * intros [H|[H1 H2]]; [by apply elem_of_nil in H|]. eauto.
      * intros (ts' & [= <-] & H1 & H2). auto.
    + split; [intros H; by apply elem_of_nil in H|]. by intros (ts & [=] & _).
  - intros ts ->. destruct ts as [|t0 ts]; simpl; [lia|].
    etrans; [apply label_loop_length|]. simpl.
    pose proof (zip_labels_length lats lons (t0 :: ts)) as Hl. simpl in Hl. lia.
Qed.
End LabelFacts.

Lemma X8_labels_near_side_witness :
  draw_labels (fun lat _ _ _ => lat) [89; 90; 91]%Q [0; 0; 0]%Q
    (Some ["near"; "edge"; "far"]) 0 0 = [(0%Q, 89%Q, "near")] ∧
  (length (draw_labels (fun lat _ _ _ => lat) [89; 90; 91]%Q [0; 0; 0]%Q
             (Some ["near"; "edge"; "far"]) 0 0) ≤ 3)%nat.
Proof.
  split; [vm_compute; reflexivity|].
  destruct (X8_labels_near_side (fun lat _ _ _ => lat) 0 0 [89; 90; 91]%Q
              [0; 0; 0]%Q (Some ["near"; "edge"; "far"]) 0 0 "") as (_ & H & _).
  apply (H ["near"; "edge"; "far"]). reflexivity.
Defined.

(** ** One pass of the station loop, stage by stage *)

Lemma np_convolve_nonempty (a v : list Q) :
  a ≠ [] → v ≠ [] → ∃ conv, np_convolve a v = Ok conv.
Proof.
  intros Ha Hv. unfold np_convolve.
  destruct (length a <? length v)%nat; destruct a, v; try done; eauto.
Qed.

Lemma py_max_nonempty (l : list Q) : l ≠ [] → ∃ m, py_max (np_abs l) = Ok m.
Proof. destruct l; [done|]. simpl. eauto. Qed.

(** [tr.times()[-1]]: the duration, [(npts - 1) * delta]. *)
Lemma times_last (tr : Trace) :
  data tr ≠ [] →
  last_item (times tr) =
  Ok (inject_Z (Z.of_nat (npts tr - 1)) * delta (stats tr))%Q.
Proof.
  intros Hd. unfold last_item, times, np_arange, npts.
  destruct (data tr) as [|y l]; [done|]. simpl length.
  rewrite seq_S, !map_app. simpl. rewrite last_snoc.
  by rewrite Nat.sub_0_r.
Qed.

Section StationStages.
Variable st_synth : list Trace.
Variables arr_times CC : gmap string Q.
Variable CClim : Q.
Variables dA dT : gmap string Q.
Variable stf : list Q.
Variable nrows : Z.

Local Abbreviation plot_station' := (plot_station st_synth arr_times CC CClim dA dT stf nrows).
Local Abbreviation plot_stations' := (plot_stations st_synth arr_times CC CClim dA dT stf nrows).

(** The exception of a pass, by the first thing that is missing. *)
Lemma plot_station_stages (iplot : Z) (tr : Trace) :
  (data tr = [] → plot_station' iplot tr = Raise ValueError) ∧
  (data tr ≠ [] → ∀ cc, CC !! station_code tr = Some cc →
     (select_station st_synth (station (stats tr)) = [] →
        plot_station' iplot tr = Raise IndexError) ∧
     (∀ g, first_item (select_station st_synth (station (stats tr))) = Ok g →
        (data g = [] ∨ stf = [] → plot_station' iplot tr = Raise ValueError) ∧
        (data g ≠ [] → stf ≠ [] →
           (dA !! station_code tr = None →
              plot_station' iplot tr = Raise (KeyError (station_code tr))) ∧
           (∀ da, dA !! station_code tr = Some da →
              (dT !! station_code tr = None →
                 plot_station' iplot tr = Raise (KeyError (station_code tr))) ∧
              (∀ dt, dT !! station_code tr = Some dt →
                 (arr_times !! station_code tr = None →
                    plot_station' iplot tr = Raise (KeyError (station_code tr))) ∧
                 (is_Some (arr_times !! station_code tr) →
                    ∃ sp, plot_station' iplot tr = Ok sp)))))).
Proof.
  unfold plot_station. split.
  { intros ->. reflexivity. }
  intros Hd cc Hcc.
  assert (Ecc : getitem CC (station_code tr) = Ok cc) by (by apply getitem_Ok).
  destruct (py_max_nonempty (data tr) Hd) as [normfac ->].
  rewrite !Ecc. cbn [mbind result_bind].
  split.
  { intros ->. reflexivity. }
  intros g ->. cbn [mbind result_bind]. split.
  { intros Hbad. assert (np_convolve (data g) stf = Raise ValueError) as ->; [|done].
    unfold np_convolve.
    destruct Hbad as [-> | ->]; [by destruct stf|].
    by destruct (length (data g) <? length [])%nat, (data g). }
  intros Hg Hstf.
  destruct (np_convolve_nonempty _ _ Hg Hstf) as [conv ->]. cbn [mbind result_bind].
  split.
  { intros HdA. by rewrite (proj2 (getitem_Raise dA _ _) (conj HdA eq_refl)). }
  intros da HdA. rewrite (proj2 (getitem_Ok dA _ da) HdA). cbn [mbind result_bind].
  split.
  { intros HdT. by rewrite (proj2 (getitem_Raise dT _ _) (conj HdT eq_refl)). }
  intros dt HdT. rewrite (proj2 (getitem_Ok dT _ dt) HdT). cbn [mbind result_bind].
  split.
  { intros Harr. by rewrite (proj2 (getitem_Raise arr_times _ _) (conj Harr eq_refl)). }
  intros [arr Harr]. rewrite (proj2 (getitem_Ok arr_times _ arr) Harr).
  cbn [mbind result_bind]. rewrite (times_last tr Hd). cbn [mbind result_bind]. eauto.
Qed.

Lemma plot_station_ready (iplot : Z) (tr : Trace) :
  station_ready arr_times CC dA dT st_synth tr → stf ≠ [] →
  ∃ sp, plot_station' iplot tr = Ok sp.
Proof.
  intros (Hd & [cc Hcc] & [da HdA] & [dt HdT] & Harr & g & Hg & Hgd) Hstf.
  destruct (plot_station_stages iplot tr) as [_ H].
  destruct (H Hd cc Hcc) as [_ H1].
  destruct (H1 g Hg) as [_ H2].
  destruct (H2 Hgd Hstf) as [_ H3].
  destruct (H3 da HdA) as [_ H4].
  destruct (H4 dt HdT) as [_ H5]. by apply H5.
Qed.

Lemma plot_stations_ready (trs : list Trace) :
  Forall (station_ready arr_times CC dA dT st_synth) trs → stf ≠ [] →
  ∀ iplot, ∃ sps, plot_stations' iplot trs = Ok sps ∧ length sps = length trs.
Proof.
  intros Hall Hstf. induction Hall as [|tr trs Htr _ IH]; intros iplot; simpl.
  - by exists [].
  - destruct (plot_station_ready iplot tr Htr Hstf) as [sp ->]. simpl.
    destruct (IH (iplot + 1)) as (sps & -> & Hlen). simpl.
    exists (sp :: sps). split; [done|]. simpl. by rewrite Hlen.
Qed.

(** A pass that returned had everything it needs. *)
Lemma plot_station_Ok_ready (iplot : Z) (tr : Trace) (sp : StationPlot) :
  plot_station' iplot tr = Ok sp →
  station_ready arr_times CC dA dT st_synth tr ∧ stf ≠ [].
Proof.
  intros H. apply plot_station_Ok in H
    as (normfac & cc & g & conv & da & dt & arr & tlast
        & Hmax & Hcc & Hg & Hconv & HdA & HdT & Harr & _).
  destruct (np_convolve_Ok _ _ _ Hconv) as (Hgd & Hstf & _).
  split; [|done].
  split; [intros Hd; by rewrite Hd in Hmax|].
  repeat split; eauto.
Qed.
End StationStages.

(** ** After the loop *)

Lemma map_columns_first_missing (pre post : list Trace) (s : Trace)
    (values : gmap string Q) :
  Forall (fun t => is_Some (values !! station_code t)) pre →
  values !! station_code s = None →
  map_columns (pre ++ s :: post) values = Raise (KeyError (station_code s)).
Proof.
  intros Hpre Hs. induction Hpre as [|t pre [v Hv] _ IH]; simpl.
  - unfold getitem. by rewrite Hs.
  - unfold getitem. rewrite Hv. simpl. by rewrite IH.
Qed.

Lemma plot_map_Ok_values (st_synth : list Trace) (values : gmap string Q)
    (clon clat CClim : Q) (ax : OrthoAxes) :
  plot_map st_synth values clon clat CClim = Ok ax →
  Forall (fun s => is_Some (values !! station_code s)) st_synth.
Proof.
  unfold plot_map. intros H. inv_Ok H. destruct a as [[lats lons] c].
  apply map_columns_Ok in Ha. clear H.
  induction Ha as [|s x st l (_ & _ & Hv) _ IH]; constructor; eauto.
Qed.

(** Once the loop has run over at least one station and the STF has a
    sample, only the map can still fail. *)
Lemma render_waveforms_after_loop (nplots : Z) (trs st_synth : list Trace)
    (arr_times CC : gmap string Q) (CClim : Q) (dA dT : gmap string Q)
    (stf : list Q) (depth : Z) (origin : Origin) (tensor : MomentTensor)
    (iteration : Z) (misfit : Q) (sps : list StationPlot) :
  plot_stations st_synth arr_times CC CClim dA dT stf (grid_nrows nplots) 0 trs = Ok sps →
  sps ≠ [] → stf ≠ [] →
  (∀ e, plot_map st_synth CC (longitude origin) (latitude origin) CClim = Raise e →
     render_waveforms nplots trs st_synth arr_times CC CClim dA dT stf depth
       origin tensor iteration misfit = Raise e) ∧
  (∀ ax, plot_map st_synth CC (longitude origin) (latitude origin) CClim = Ok ax →
     ∃ fig, render_waveforms nplots trs st_synth arr_times CC CClim dA dT stf depth
              origin tensor iteration misfit = Ok fig ∧
       wf_stations fig = sps ∧ wf_map fig = ax).
Proof.
  intros Hloop Hsps Hstf. unfold render_waveforms. rewrite Hloop.
  cbn [mbind result_bind].
  destruct (last sps) as [lastp|] eqn:Hlast; [|by apply last_None in Hlast].
  cbn [mbind result_bind]. rewrite _dict_mean_values. cbn [mbind result_bind].
  assert (Hx : ∀ f : Q → npfloat, ∃ x0 xl,
    first_item (map f (np_arange (length stf))) = Ok x0 ∧
    last_item (map f (np_arange (length stf))) = Ok xl).
  { intros f. destruct stf as [|y l]; [done|]. unfold np_arange. simpl length.
    rewrite seq_S, !map_app. unfold last_item. rewrite last_app. simpl.
    destruct (seq 0 (length l)); simpl; eauto. }
  match goal with
  | |- context [first_item (map ?f _)] => destruct (Hx f) as (x0 & xl & -> & ->)
  end.
  cbn [mbind result_bind]. split.
  - intros e ->. reflexivity.
  - intros ax ->. cbn [mbind result_bind]. eexists. split; [reflexivity|]. done.
Qed.

(** ** When the call returns, and what it raises otherwise *)

Section Outcome.
Variable h : heap.
Variables st_data st_synth : loc.
Variables arr_times CC : gmap string Q.
Variable CClim : Q.
Variables dA dT : gmap string Q.
Variable stf : list Q.
Variable depth : Z.
Variable origin : Origin.
Variable tensor : MomentTensor.
Variable iteration : Z.
Variable misfit : Q.
Variables traces synth : list Trace.

Hypothesis Hdata : h !! st_data = Some traces.
Hypothesis Hsynth : h !! st_synth = Some synth.

Local Abbreviation the_call :=
  (fst (plot_waveforms st_data st_synth arr_times CC CClim dA dT stf depth
          origin tensor iteration misfit h)).
Local Abbreviation rows := (Z.sqrt (Z.of_nat (length traces)) + 1).
Local Abbreviation ready := (station_ready arr_times CC dA dT synth).
Local Abbreviation pass := (plot_station synth arr_times CC CClim dA dT stf rows).

Lemma the_call_eq :
  the_call =
  render_waveforms (Z.of_nat (length traces)) (sort_by_azi traces) synth
    arr_times CC CClim dA dT stf depth origin tensor iteration misfit.
Proof using Hdata Hsynth. by apply run_eq. Qed.

(** The call raises what the first failing pass raises. *)
Lemma the_call_first_failure (k : nat) (tr : Trace) (e : py_exception) :
  sort_by_azi traces !! k = Some tr →
  (∀ (j : nat) (tr' : Trace), (j < k)%nat →
     sort_by_azi traces !! j = Some tr' → ∃ sp, pass (Z.of_nat j) tr' = Ok sp) →
  pass (Z.of_nat k) tr = Raise e →
  the_call = Raise e.
Proof using Hdata Hsynth.
  intros Hk Hbefore He. rewrite the_call_eq. unfold render_waveforms.
  rewrite grid_nrows_sqrt.
  rewrite (plot_stations_first_failure _ _ _ _ _ _ _ _ _ 0 k tr e); [done | done | |].
  - intros j tr' Hj Hl. rewrite Z.add_0_l. by apply Hbefore.
  - by rewrite Z.add_0_l.
Qed.

Lemma earlier_ready_pass (k : nat) :
  stf ≠ [] →
  (∀ (j : nat) (tr' : Trace), (j < k)%nat →
     sort_by_azi traces !! j = Some tr' → ready tr') →
  ∀ (j : nat) (tr' : Trace), (j < k)%nat →
    sort_by_azi traces !! j = Some tr' → ∃ sp, pass (Z.of_nat j) tr' = Ok sp.
Proof.
  intros Hstf Hb j tr' Hj Hl. apply plot_station_ready; [by eapply Hb | done].
Qed.

Lemma the_call_Ok_conditions (fig : WaveformFigure) :
  the_call = Ok fig →
  traces ≠ [] ∧ stf ≠ [] ∧ Forall ready traces ∧
  Forall (fun s => is_Some (CC !! station_code s)) synth.
Proof using Hdata Hsynth.
  rewrite the_call_eq. intros Hr.
  apply render_waveforms_Ok in Hr
    as (sps & lastp & m & ax & Hsps & Hlast & _ & Hmap & _).
  destruct (plot_stations_Ok _ _ _ _ _ _ _ _ _ _ _ Hsps) as [Hlen Hall].
  assert (Hpass : ∀ tr, tr ∈ traces →
            ready tr ∧ stf ≠ []).
  { intros tr Hin. rewrite <- (sort_by_azi_perm traces) in Hin.
    apply list_elem_of_lookup in Hin as [k Hk].
    destruct (lookup_lt_is_Some_2 sps k) as [sp Hsp].
    { rewrite Hlen. by eapply lookup_lt_Some. }
    destruct (Hall k sp Hsp) as (tr' & Hk' & Hok).
    assert (tr' = tr) as -> by congruence.
    by eapply plot_station_Ok_ready. }
  assert (Hne : traces ≠ []).
  { intros ->. simpl in Hsps. injection Hsps as <-. done. }
  split; [done|]. split.
  - destruct traces as [|tr rest]; [done|]. apply (Hpass tr). left.
  - split; [|by eapply plot_map_Ok_values].
    apply Forall_forall. intros tr Hin. by apply Hpass.
Qed.

Lemma the_loop_returns :
  traces ≠ [] → stf ≠ [] → Forall ready traces →
  ∃ sps,
    plot_stations synth arr_times CC CClim dA dT stf
      (grid_nrows (Z.of_nat (length traces))) 0 (sort_by_azi traces) = Ok sps ∧
    sps ≠ [].
Proof.
  intros Hne Hstf Hall.
  assert (Hall' : Forall ready (sort_by_azi traces)).
  { by rewrite sort_by_azi_perm. }
  destruct (plot_stations_ready synth arr_times CC CClim dA dT stf
              (grid_nrows (Z.of_nat (length traces))) _ Hall' Hstf 0)
    as (sps & Hsps & Hlen).
  exists sps. split; [done|]. intros ->. simpl in Hlen.
  rewrite sort_by_azi_length in Hlen. by destruct traces.
Qed.

(** X9: an empty data stream.  The loop body never runs, the legend line
    reads [l_s] before any assignment, and the call ends with
    UnboundLocalError; nothing is drawn for an empty station set. *)
Theorem X9_empty_stream :
  traces = [] →
  fst (plot_waveforms st_data st_synth arr_times CC CClim dA dT stf depth
         origin tensor iteration misfit h) = Raise (UnboundLocalError "l_s").
Proof using Hdata Hsynth.
  intros Hnil. rewrite the_call_eq, Hnil. reflexivity.
Qed.

(** X10: what a returned figure requires.  Whenever [plot_waveforms]
    returns a figure, there was at least one data trace, the STF had a
    sample, every data trace had samples, an entry in each of CC, dA, dT and
    the arrival times, and a synthetic trace of its station with samples,
    and every synthetic trace had an entry in CC (the map is drawn over the
    synthetic stream).  With any of these missing the call raises an
    exception and returns no figure. *)
Theorem X10_returns_only_if (fig : WaveformFigure) :
  fst (plot_waveforms st_data st_synth arr_times CC CClim dA dT stf depth
         origin tensor iteration misfit h) = Ok fig →
  traces ≠ [] ∧ stf ≠ [] ∧
  Forall (station_ready arr_times CC dA dT synth) traces ∧
  Forall (fun s => is_Some (CC !! station_code s)) synth.
Proof using Hdata Hsynth.
  apply the_call_Ok_conditions.
Qed.

(** X11: with an empty STF no figure is ever produced, whatever the other
    inputs are; when the first station in azimuth order has a CC entry and a
    synthetic trace, the exception is ValueError (from [max] of an empty
    trace or from [np.convolve]). *)
Theorem X11_empty_stf :
  stf = [] →
  (∃ e, the_call = Raise e) ∧
  (∀ tr, sort_by_azi traces !! 0%nat = Some tr →
     is_Some (CC !! station_code tr) →
     select_station synth (station (stats tr)) ≠ [] →
     the_call = Raise ValueError).
Proof using Hdata Hsynth.
  intros Hstf. split.
  - destruct the_call as [fig|e] eqn:E; [|by exists e].
    apply the_call_Ok_conditions in E as (_ & Hne & _). done.
  - intros tr Htr [cc Hcc] Hsel.
    apply (the_call_first_failure 0 tr); [done | intros; lia |].
    destruct (plot_station_stages synth arr_times CC CClim dA dT stf rows 0 tr)
      as [Hempty Hstages].
    destruct (data tr) as [|y l] eqn:Hd; [by apply Hempty|].
    destruct (Hstages ltac:(done) cc Hcc) as [_ Hg].
    destruct (select_station synth (station (stats tr))) as [|g gs] eqn:Hs; [done|].
    destruct (Hg g eq_refl) as [Hbad _]. apply Hbad. by right.
Qed.

(** X12: a station without a synthetic trace.  When the stations before it
    in azimuth order are complete and it has samples and a CC entry, the
    call ends with IndexError, raised by [select(...)[0]]; the exception does
    not say which station it was. *)
Theorem X12_missing_synthetic (k : nat) (tr : Trace) :
  sort_by_azi traces !! k = Some tr →
  stf ≠ [] →
  (∀ (j : nat) (tr' : Trace), (j < k)%nat →
     sort_by_azi traces !! j = Some tr' → ready tr') →
  data tr ≠ [] → is_Some (CC !! station_code tr) →
  select_station synth (station (stats tr)) = [] →
  the_call = Raise IndexError.
Proof using Hdata Hsynth.
  intros Hk Hstf Hb Hd [cc Hcc] Hsel.
  apply (the_call_first_failure k tr); [done | by apply earlier_ready_pass |].
  destruct (plot_station_stages synth arr_times CC CClim dA dT stf rows
              (Z.of_nat k) tr) as [_ Hstages].
  destruct (Hstages Hd cc Hcc) as [Hidx _]. by apply Hidx.
Qed.

(** X13: a station without a dA, dT or arrival-time entry.  When the
    stations before it are complete and it has samples, a CC entry and a
    synthetic trace with samples, the call ends with KeyError carrying that
    station's code (its curves have been drawn by then, the figure is never
    saved). *)
Theorem X13_missing_metric (k : nat) (tr : Trace) (g : Trace) :
  sort_by_azi traces !! k = Some tr →
  stf ≠ [] →
  (∀ (j : nat) (tr' : Trace), (j < k)%nat →
     sort_by_azi traces !! j = Some tr' → ready tr') →
  data tr ≠ [] → is_Some (CC !! station_code tr) →
  first_item (select_station synth (station (stats tr))) = Ok g → data g ≠ [] →
  dA !! station_code tr = None ∨ dT !! station_code tr = None ∨
    arr_times !! station_code tr = None →
  the_call = Raise (KeyError (station_code tr)).
Proof using Hdata Hsynth.
  intros Hk Hstf Hb Hd [cc Hcc] Hg Hgd Hmiss.
  apply (the_call_first_failure k tr); [done | by apply earlier_ready_pass |].
  destruct (plot_station_stages synth arr_times CC CClim dA dT stf rows
              (Z.of_nat k) tr) as [_ Hstages].
  destruct (Hstages Hd cc Hcc) as [_ H1].
  destruct (H1 g Hg) as [_ H2].
  destruct (H2 Hgd Hstf) as [HdA H3].
  destruct (dA !! station_code tr) as [da|] eqn:EdA; [|by apply HdA].
  destruct (H3 da eq_refl) as [HdT H4].
  destruct (dT !! station_code tr) as [dt|] eqn:EdT; [|by apply HdT].
  destruct (H4 dt eq_refl) as [Harr _].
  destruct Hmiss as [?|[?|Hm]]; [done | done | by apply Harr].
Qed.

(** X14: a trace without samples.  When the stations before it are
    complete, a data trace with no samples ends the call with ValueError
    ([max] of an empty sequence), and so does, for a station with samples and
    a CC entry, a synthetic trace with no samples ([np.convolve]). *)
Theorem X14_no_samples (k : nat) (tr : Trace) :
  sort_by_azi traces !! k = Some tr →
  stf ≠ [] →
  (∀ (j : nat) (tr' : Trace), (j < k)%nat →
     sort_by_azi traces !! j = Some tr' → ready tr') →
  (data tr = [] → the_call = Raise ValueError) ∧
  (∀ g, data tr ≠ [] → is_Some (CC !! station_code tr) →
     first_item (select_station synth (station (stats tr))) = Ok g →
     data g = [] → the_call = Raise ValueError).
Proof using Hdata Hsynth.
  intros Hk Hstf Hb.
  destruct (plot_station_stages synth arr_times CC CClim dA dT stf rows
              (Z.of_nat k) tr) as [Hempty Hstages].
  split.
  - intros Hd.
    apply (the_call_first_failure k tr); [done | by apply earlier_ready_pass |].
    by apply Hempty.
  - intros g Hd [cc Hcc] Hg Hgd.
    apply (the_call_first_failure k tr); [done | by apply earlier_ready_pass |].
    destruct (Hstages Hd cc Hcc) as [_ H1].
    destruct (H1 g Hg) as [Hbad _]. apply Hbad. by left.
Qed.

(** X15: the map is drawn over the synthetic stream, so CC has to cover
    every synthetic trace, also one whose station has no data trace: with all
    data stations complete, the first synthetic trace (in stream order)
    without a CC entry ends the call with KeyError carrying its code, after
    all the waveforms have been drawn. *)
Theorem X15_synthetic_without_CC (pre post : list Trace) (s : Trace) :
  traces ≠ [] → stf ≠ [] → Forall ready traces →
  synth = pre ++ s :: post →
  Forall (fun t => is_Some (CC !! station_code t)) pre →
  CC !! station_code s = None →
  the_call = Raise (KeyError (station_code s)).
Proof using Hdata Hsynth.
  intros Hne Hstf Hall Hsyn Hpre Hs.
  destruct (the_loop_returns Hne Hstf Hall) as (sps & Hsps & Hsne).
  destruct (render_waveforms_after_loop _ _ _ _ _ _ _ _ _ depth origin tensor
              iteration misfit _ Hsps Hsne Hstf) as [Herr _].
  rewrite the_call_eq. apply Herr.
  unfold plot_map. rewrite Hsyn.
  by rewrite (map_columns_first_missing pre post s CC Hpre Hs).
Qed.
End Outcome.

(** *** At concrete inputs *)

Lemma X9_empty_stream_witness :
  Edge.call Scenario.stf Scenario.dT (Edge.store_of [] Edge.greens) =
  Raise (UnboundLocalError "l_s").
Proof.
  apply (X9_empty_stream (Edge.store_of [] Edge.greens) 1%positive 2%positive
           Scenario.arr_times Scenario.CC Scenario.CClim Scenario.dA Scenario.dT
           Scenario.stf 1000 Scenario.origin Scenario.tensor 3 0 [] Edge.greens);
    reflexivity.
Defined.

Lemma X10_returns_only_if_witness :
  ∃ fig,
    Edge.call Scenario.stf Scenario.dT (Edge.store_of Edge.three Edge.greens) = Ok fig ∧
    Forall (station_ready Scenario.arr_times Scenario.CC Scenario.dA Scenario.dT
              Edge.greens) Edge.three ∧
    Forall (fun s => is_Some (Scenario.CC !! station_code s)) Edge.greens.
Proof.
  eexists. split; [vm_compute; reflexivity|].
  destruct (X10_returns_only_if (Edge.store_of Edge.three Edge.greens)
              1%positive 2%positive
              Scenario.arr_times Scenario.CC Scenario.CClim Scenario.dA Scenario.dT
              Scenario.stf 1000 Scenario.origin Scenario.tensor 3 0
              Edge.three Edge.greens eq_refl eq_refl _
              ltac:(vm_compute; reflexivity))
    as (_ & _ & Hready & Hcc).
  split; [exact Hready | exact Hcc].
Defined.

Lemma X11_empty_stf_witness :
  ∃ e, Edge.call [] Scenario.dT (Edge.store_of Edge.three Edge.greens) = Raise e.
Proof.
  apply (X11_empty_stf (Edge.store_of Edge.three Edge.greens) 1%positive 2%positive
           Scenario.arr_times Scenario.CC Scenario.CClim Scenario.dA Scenario.dT
           [] 1000 Scenario.origin Scenario.tensor 3 0
           Edge.three Edge.greens eq_refl eq_refl eq_refl).
Defined.

Lemma X12_missing_synthetic_witness :
  Edge.call Scenario.stf Scenario.dT
    (Edge.store_of Edge.three [Scenario.green_A; Scenario.green_C]) =
  Raise IndexError.
Proof.
  apply (X12_missing_synthetic
           (Edge.store_of Edge.three [Scenario.green_A; Scenario.green_C])
           1%positive 2%positive Scenario.arr_times
           Scenario.CC Scenario.CClim Scenario.dA Scenario.dT Scenario.stf 1000
           Scenario.origin Scenario.tensor 3 0
           Edge.three [Scenario.green_A; Scenario.green_C] eq_refl eq_refl
           0%nat Scenario.data_B).
  - vm_compute. reflexivity.
  - discriminate.
  - intros j tr' Hj. lia.
  - discriminate.
  - eexists. vm_compute. reflexivity.
  - vm_compute. reflexivity.
Defined.

Lemma X13_missing_metric_witness :
  Edge.call Scenario.stf (delete "B.00" Scenario.dT)
    (Edge.store_of Edge.three Edge.greens) =
  Raise (KeyError "B.00").
Proof.
  apply (X13_missing_metric (Edge.store_of Edge.three Edge.greens)
           1%positive 2%positive
           Scenario.arr_times Scenario.CC Scenario.CClim Scenario.dA
           (delete "B.00" Scenario.dT) Scenario.stf 1000 Scenario.origin
           Scenario.tensor 3 0 Edge.three Edge.greens
           eq_refl eq_refl 0%nat Scenario.data_B Scenario.green_B).
  - vm_compute. reflexivity.
  - discriminate.
  - intros j tr' Hj. lia.
  - discriminate.
  - eexists. vm_compute. reflexivity.
  - vm_compute. reflexivity.
  - discriminate.
  - right. left. vm_compute. reflexivity.
Defined.

Lemma X14_no_samples_witness :
  Edge.call Scenario.stf Scenario.dT
    (Edge.store_of [Scenario.data_A; Edge.empty_B] Edge.greens) =
  Raise ValueError.
Proof.
  apply (X14_no_samples
           (Edge.store_of [Scenario.data_A; Edge.empty_B] Edge.greens)
           1%positive 2%positive Scenario.arr_times
           Scenario.CC Scenario.CClim Scenario.dA Scenario.dT Scenario.stf 1000
           Scenario.origin Scenario.tensor 3 0
           [Scenario.data_A; Edge.empty_B] Edge.greens eq_refl eq_refl
           0%nat Edge.empty_B).
  - vm_compute. reflexivity.
  - discriminate.
  - intros j tr' Hj. lia.
  - reflexivity.
Defined.

Lemma X15_synthetic_without_CC_witness :
  Edge.call Scenario.stf Scenario.dT
    (Edge.store_of Edge.three (Edge.greens ++ [Edge.green_D])) =
  Raise (KeyError "D.00").
Proof.
  apply (X15_synthetic_without_CC
           (Edge.store_of Edge.three (Edge.greens ++ [Edge.green_D]))
           1%positive 2%positive Scenario.arr_times
           Scenario.CC Scenario.CClim Scenario.dA Scenario.dT Scenario.stf 1000
           Scenario.origin Scenario.tensor 3 0
           Edge.three (Edge.greens ++ [Edge.green_D])
           eq_refl eq_refl Edge.greens [] Edge.green_D).
  - discriminate.
  - discriminate.
  - repeat constructor; try discriminate;
      try (eexists; vm_compute; reflexivity);
      (eexists; split; [vm_compute; reflexivity | discriminate]).
  - reflexivity.
  - repeat constructor; eexists; vm_compute; reflexivity.
  - vm_compute. reflexivity.
Defined.

(** ** Where things are drawn *)

Lemma np_linspace0_length (stop : Q) (n : nat) : length (np_linspace0 stop n) = n.
Proof.
  destruct n as [|[|m]]; [done | done |].
  unfold np_linspace0. by rewrite length_map, length_seq.
Qed.

Lemma np_linspace0_range (stop : Q) (n : nat) (x : Q) :
  (0 <= stop)%Q → x ∈ np_linspace0 stop n → (0 <= x)%Q ∧ (x <= stop)%Q.
Proof.
  intros Hs. destruct n as [|[|m]].
  - intros H. by apply elem_of_nil in H.
  - intros H. apply list_elem_of_singleton in H as ->. split; [apply Qle_refl | done].
  - unfold np_linspace0. intros H.
    apply list_elem_of_fmap in H as (i & -> & Hi).
    apply list_elem_of_In, in_seq in Hi.
    assert (HM : (0 < inject_Z (Z.of_nat (S m)))%Q).
    { change 0%Q with (inject_Z 0). rewrite <- Zlt_Qlt. lia. }
    assert (Hstep : (0 <= stop / inject_Z (Z.of_nat (S m)))%Q).
    { apply Qle_shift_div_l; [done|]. by rewrite Qmult_0_l. }
    assert (Hi0 : (0 <= inject_Z (Z.of_nat i))%Q).
    { change 0%Q with (inject_Z 0). rewrite <- Zle_Qle. lia. }
    assert (HiM : (inject_Z (Z.of_nat i) <= inject_Z (Z.of_nat (S m)))%Q).
    { rewrite <- Zle_Qle. lia. }
    split.
    + by apply Qmult_le_0_compat.
    + eapply Qle_trans; [by apply Qmult_le_compat_r|].
      apply Qle_lteq. right. field. intros H0. rewrite H0 in HM.
      by apply Qlt_irrefl in HM.
Qed.

(** The x values of a curve lie in its cell, one per y value. *)
Lemma offset_curve_extent (yvals : list npfloat) (xoffset yoffset : Q)
    (c : string) (ls : LineStyle) (lw : Q) :
  let line := offset_curve yvals xoffset yoffset c ls lw in
  length (xdata line) = length yvals ∧
  length (ydata line) = length yvals ∧
  ∀ x, x ∈ xdata line →
    ∃ q, x = Num q ∧ (xoffset <= q)%Q ∧ (q <= xoffset + (4 # 5))%Q.
Proof.
  simpl. rewrite !length_map, np_linspace0_length.
  split; [done|]. split; [done|].
  intros x Hx. apply list_elem_of_fmap in Hx as (q & -> & Hq).
  apply np_linspace0_range in Hq as [H0 H1]; [|done].
  exists (q + xoffset)%Q. split; [done|]. split.
  - rewrite <- (Qplus_0_l xoffset) at 1. by apply Qplus_le_l.
  - rewrite (Qplus_comm xoffset). by apply Qplus_le_l.
Qed.

(** The arrival mark of a pass. *)
Lemma plot_station_arrival (st_synth : list Trace) (arr_times CC : gmap string Q)
    (CClim : Q) (dA dT : gmap string Q) (stf : list Q) (nrows iplot : Z)
    (tr : Trace) (sp : StationPlot) :
  plot_station st_synth arr_times CC CClim dA dT stf nrows iplot tr = Ok sp →
  ∃ arr,
    arr_times !! station_code tr = Some arr ∧ data tr ≠ [] ∧
    let duration := (inject_Z (Z.of_nat (npts tr - 1)) * delta (stats tr))%Q in
    let x := np_addq (np_mulq (np_div arr duration) (4 # 5)) (sp_xoffset sp) in
    xdata (sp_arrival sp) = [x; x] ∧
    ydata (sp_arrival sp) =
      [Num (sp_yoffset sp + (1 # 2)); Num (sp_yoffset sp - (1 # 2))].
Proof.
  unfold plot_station. intros H. inv_Ok H.
  apply getitem_Ok in Ha7. injection H as <-.
  assert (Hd : data tr ≠ []).
  { intros Hd. by rewrite Hd in Ha. }
  rewrite (times_last tr Hd) in Ha8. injection Ha8 as <-.
  exists a7. simpl. done.
Qed.







(** Which stations carry which marker, given the two layers of the map. *)
Lemma marked_groups (ax : OrthoAxes) (CClim : Q) (mA mB : string)
    (A B : list (Q * Q * Q)) (t : Q * Q * Q) :
  oa_scatters ax = group_layer mA CClim A ++ group_layer mB CClim B →
  mA ≠ mB →
  (marked ax mA t ↔ t ∈ A) ∧ (marked ax mB t ↔ t ∈ B).
Proof.
  intros Hl Hne. unfold marked. rewrite Hl. split; split.
  - intros (layer & Hin & Hmk & Ht). apply elem_of_app in Hin as [Hin|Hin];
      apply group_layer_columns in Hin as (Hm & Hz & _); [by rewrite <- Hz|congruence].
  - intros Ht. destruct A as [|a A']; [by apply elem_of_nil in Ht|].
    eexists. split; [apply elem_of_app; left; simpl; left|].
    split; [done|]. rewrite <- (zip3_columns (a :: A')) in Ht. exact Ht.
  - intros (layer & Hin & Hmk & Ht). apply elem_of_app in Hin as [Hin|Hin];
      apply group_layer_columns in Hin as (Hm & Hz & _); [congruence|by rewrite <- Hz].
  - intros Ht. destruct B as [|b B']; [by apply elem_of_nil in Ht|].
    eexists. split; [apply elem_of_app; right; simpl; left|].
    split; [done|]. rewrite <- (zip3_columns (b :: B')) in Ht. exact Ht.
Qed.

(** On the map a trace with value [v] carries 'o' exactly when [v] exceeds
    the threshold and 'd' exactly when it does not. *)
Lemma plot_map_marked (st_synth : list Trace) (values : gmap string Q)
    (clon clat CClim : Q) (ax : OrthoAxes) (s : Trace) (v : Q) :
  plot_map st_synth values clon clat CClim = Ok ax →
  s ∈ st_synth → values !! station_code s = Some v →
  (marked ax "o" (stlo (stats s), stla (stats s), v) ↔ (CClim < v)%Q) ∧
  (marked ax "d" (stlo (stats s), stla (stats s), v) ↔ (v <= CClim)%Q).
Proof.
  unfold plot_map. intros H Hin Hv. inv_Ok H. destruct a as [[lats lons] c].
  pose proof (add_ortho_layers _ _ _ _ _ _ ["o"; "d"] "o" "d" ax eq_refl eq_refl H)
    as Hl.
  apply map_columns_Ok in Ha.
  apply list_elem_of_lookup in Hin as [k Hk].
  destruct (Forall2_lookup_l _ _ _ _ _ Ha Hk) as ([[lon lat] c'] & Ht & Hlon & Hlat & Hval).
  unfold st_lon, st_lat, st_value in Hlon, Hlat, Hval. simpl in Hlon, Hlat, Hval.
  subst lon lat. assert (c' = v) as -> by congruence.
  apply list_elem_of_lookup_2 in Ht.
  destruct (marked_groups ax CClim "o" "d" _ _
              (stlo (stats s), stla (stats s), v) Hl ltac:(done)) as [-> ->].
  rewrite !list_elem_of_filter. unfold above, not_above, st_value. simpl.
  rewrite Qltb_lt, Qltb_ge. tauto.
Qed.

Section Geometry.
Variable h : heap.
Variables st_data st_synth : loc.
Variables arr_times CC : gmap string Q.
Variable CClim : Q.
Variables dA dT : gmap string Q.
Variable stf : list Q.
Variable depth : Z.
Variable origin : Origin.
Variable tensor : MomentTensor.
Variable iteration : Z.
Variable misfit : Q.
Variables traces synth : list Trace.
Variable fig : WaveformFigure.

Hypothesis Hdata : h !! st_data = Some traces.
Hypothesis Hsynth : h !! st_synth = Some synth.
Hypothesis Hrun :
  fst (plot_waveforms st_data st_synth arr_times CC CClim dA dT stf depth
         origin tensor iteration misfit h) = Ok fig.

Local Abbreviation rows := (Z.sqrt (Z.of_nat (length traces)) + 1).
Local Abbreviation nplots := (Z.of_nat (length traces)).

Lemma station_facts (i : nat) (sp : StationPlot) :
  wf_stations fig !! i = Some sp →
  ∃ cc g conv,
    sort_by_azi traces !! i = Some (sp_trace sp) ∧
    py_max (np_abs (data (sp_trace sp))) = Ok (sp_normfac sp) ∧
    CC !! station_code (sp_trace sp) = Some cc ∧
    is_Some (dT !! station_code (sp_trace sp)) ∧
    first_item (select_station synth (station (stats (sp_trace sp)))) = Ok g ∧
    np_convolve (data g) stf = Ok conv ∧
    sp_ls sp = (if Qltb CClim cc then Solid else Dotted) ∧
    l_d sp = offset_curve (np_div_all (data (sp_trace sp)) (sp_normfac sp))
               (sp_xoffset sp) (sp_yoffset sp) "k" (sp_ls sp) 2 ∧
    l_g sp = offset_curve (np_div_all (data g) (sp_normfac sp))
               (sp_xoffset sp) (sp_yoffset sp) "grey" (sp_ls sp) 1 ∧
    l_s sp = offset_curve
               (np_div_all (take (npts (sp_trace sp)) conv) (sp_normfac sp))
               (sp_xoffset sp) (sp_yoffset sp) "r" (sp_ls sp) (3 # 2).
Proof using Hdata Hsynth Hrun.
  apply (drawn_station_facts h st_data st_synth arr_times CC CClim dA dT stf
           depth origin tensor iteration misfit traces synth fig Hdata Hsynth Hrun).
Qed.

(** Row, column and offsets of the station drawn at index [i]. *)
Lemma station_cell (i : nat) (sp : StationPlot) :
  wf_stations fig !! i = Some sp →
  (i < length traces)%nat ∧
  sp_irow sp = Z.of_nat i `mod` rows ∧ sp_icol sp = Z.of_nat i / rows ∧
  sp_xoffset sp = inject_Z (sp_icol sp) ∧
  sp_yoffset sp = (inject_Z (sp_irow sp) * (3 # 2))%Q.
Proof using Hdata Hsynth Hrun.
  intros Hi. split.
  { rewrite <- (drawn_station_count h st_data st_synth arr_times CC CClim dA dT
                  stf depth origin tensor iteration misfit traces synth fig)
      by done.
    by eapply lookup_lt_Some. }
  destruct (drawn_station h st_data st_synth arr_times CC CClim dA dT stf depth
              origin tensor iteration misfit traces synth fig Hdata Hsynth Hrun
              i sp Hi) as (tr & _ & Hsp).
  apply plot_station_Ok in Hsp
    as (normfac & cc & g & conv & da & dt & arr & tlast
        & _ & _ & _ & _ & _ & _ & _ & _ & Hsp).
  simpl in Hsp. destruct Hsp as (_ & Hrow & Hcol & _ & Hx & Hy & _).
  assert (Hrows : 0 < rows).
  { pose proof (Z.sqrt_nonneg nplots). lia. }
  rewrite py_int_div_nonneg in Hcol, Hx by lia.
  by rewrite Hrow, Hcol, Hx, Hy.
Qed.

(** X16: every curve of every station has one x value per y value (so
    [ax.plot] never sees arrays of different lengths), and its x values lie
    between the station's column and column + 0.8: the three curves of a
    station share the same 0.8-wide band whatever their sample counts. *)
Theorem X16_curves_in_their_cell (i : nat) (sp : StationPlot) (line : Line2D) :
  wf_stations fig !! i = Some sp →
  line ∈ [l_d sp; l_g sp; l_s sp] →
  length (xdata line) = length (ydata line) ∧
  ∀ x, x ∈ xdata line →
    ∃ q, x = Num q ∧ (inject_Z (sp_icol sp) <= q)%Q ∧
      (q <= inject_Z (sp_icol sp) + (4 # 5))%Q.
Proof using Hdata Hsynth Hrun.
  intros Hi Hline.
  destruct (station_facts i sp Hi)
    as (cc & g & conv & _ & _ & _ & _ & _ & _ & _ & Hd & Hg & Hs).
  destruct (station_cell i sp Hi) as (_ & _ & _ & Hx & _).
  rewrite Hx in Hd, Hg, Hs.
  assert (∃ yvals c lw,
    line = offset_curve yvals (inject_Z (sp_icol sp)) (sp_yoffset sp) c (sp_ls sp) lw)
    as (yvals & c & lw & ->).
  { apply elem_of_cons in Hline as [->|Hline]; [eauto|].
    apply elem_of_cons in Hline as [->|Hline]; [eauto|].
    apply list_elem_of_singleton in Hline as ->. eauto. }
  destruct (offset_curve_extent yvals (inject_Z (sp_icol sp)) (sp_yoffset sp)
              c (sp_ls sp) lw) as (Hlx & Hly & Hext).
  split; [by rewrite Hlx, Hly | exact Hext].
Qed.

Lemma cell_bounds (i : nat) (sp : StationPlot) :
  wf_stations fig !! i = Some sp →
  0 ≤ sp_irow sp < grid_nrows nplots ∧
  0 ≤ sp_icol sp < grid_nrows nplots ∧
  (inject_Z (sp_icol sp) + 1 <= grid_ncols nplots)%Q.
Proof using Hdata Hsynth Hrun.
  intros Hi. destruct (station_cell i sp Hi) as (Hlt & Hrow & Hcol & _).
  rewrite grid_nrows_sqrt.
  pose proof (Z.sqrt_spec nplots ltac:(lia)) as [Hlo Hhi].
  assert (Hrows : 0 < rows) by (pose proof (Z.sqrt_nonneg nplots); lia).
  split; [rewrite Hrow; by apply Z.mod_pos_bound|].
  split.
  { rewrite Hcol. split; [apply Z.div_pos; lia|].
    apply Z.div_lt_upper_bound; [done|].
    replace (Z.succ (Z.sqrt nplots)) with rows in Hhi by lia. lia. }
  unfold grid_ncols. rewrite grid_nrows_sqrt. apply Qplus_le_l.
  rewrite (inject_Z_div nplots rows Hrows), Hcol.
  unfold Qle, inject_Z. simpl. rewrite Z2Pos.id by done.
  pose proof (Z.mul_div_le (Z.of_nat i) rows Hrows). lia.
Qed.


(** X18: the data curve is never clipped.  For a station whose data trace
    has a non-zero sample, every point of its data curve lies inside the
    axis limits that the call sets, x in [0, columns * 1.2] and y in
    [-1.5, rows * 1.5]. *)
Theorem X18_data_curve_inside_axes (i j : nat) (sp : StationPlot) (x y : npfloat) :
  wf_stations fig !! i = Some sp →
  ¬ (sp_normfac sp == 0)%Q →
  xdata (l_d sp) !! j = Some x → ydata (l_d sp) !! j = Some y →
  point_within (wf_xlim fig) (wf_ylim fig) x y.
Proof using Hdata Hsynth Hrun.
  intros Hi Hnf Hx Hy.
  destruct (station_facts i sp Hi)
    as (cc & g & conv & _ & Hmax & _ & _ & _ & _ & _ & Hd & _).
  destruct (station_cell i sp Hi) as (_ & _ & _ & Hxo & Hyo).
  destruct (cell_bounds i sp Hi) as ([Hr0 Hr1] & [Hc0 Hc1] & Hcn).
  destruct (figure_limits h st_data st_synth arr_times CC CClim dA dT stf depth
              origin tensor iteration misfit traces synth fig Hdata Hsynth Hrun)
    as [-> ->].
  rewrite Hd in Hx, Hy.
  destruct (offset_curve_extent (np_div_all (data (sp_trace sp)) (sp_normfac sp))
              (sp_xoffset sp) (sp_yoffset sp) "k" (sp_ls sp) 2) as (_ & _ & Hext).
  destruct (Hext x) as (qx & -> & Hx0 & Hx1); [by eapply list_elem_of_lookup_2|].
  simpl in Hy. rewrite list_lookup_fmap in Hy.
  destruct (np_div_all (data (sp_trace sp)) (sp_normfac sp) !! j) as [v|] eqn:Hv;
    [|done].
  injection Hy as <-.
  destruct (normalized_max_abs _ _ Hmax Hnf) as [_ Hall].
  destruct (Hall v) as (qv & -> & Habs); [by eapply list_elem_of_lookup_2|].
  apply Qabs_Qle_condition in Habs as [Hv0 Hv1].
  exists qx, (qv + sp_yoffset sp)%Q. split; [done|]. split; [done|]. simpl.
  rewrite Hxo in Hx0, Hx1. rewrite Hyo.
  assert (Hc : (0 <= inject_Z (sp_icol sp))%Q).
  { change 0%Q with (inject_Z 0). by rewrite <- Zle_Qle. }
  assert (Hr : (0 <= inject_Z (sp_irow sp))%Q).
  { change 0%Q with (inject_Z 0). by rewrite <- Zle_Qle. }
  assert (Hr' : (inject_Z (sp_irow sp) + 1 <= inject_Z (grid_nrows nplots))%Q).
  { change 1%Q with (inject_Z 1). rewrite <- inject_Z_plus, <- Zle_Qle. lia. }
  repeat split; lra.
Qed.

(** X19: the arrival mark.  For a trace of at least two samples with a
    positive sample interval the mark is a vertical stroke from y = offset +
    0.5 to offset - 0.5 at x = arrival / duration * 0.8 + column, duration =
    (npts - 1) * delta; an arrival between 0 and the duration is drawn inside
    the 0.8-wide band of the cell.  For a one-sample trace the duration is 0
    and the mark has no finite position (inf or nan). *)
Theorem X19_arrival_mark (i : nat) (sp : StationPlot) :
  wf_stations fig !! i = Some sp →
  ∃ arr,
    arr_times !! station_code (sp_trace sp) = Some arr ∧
    ydata (sp_arrival sp) =
      [Num (sp_yoffset sp + (1 # 2)); Num (sp_yoffset sp - (1 # 2))] ∧
    let duration :=
      (inject_Z (Z.of_nat (npts (sp_trace sp) - 1)) * delta (stats (sp_trace sp)))%Q in
    ((2 ≤ npts (sp_trace sp))%nat → (0 < delta (stats (sp_trace sp)))%Q →
       ∃ q, xdata (sp_arrival sp) = [Num q; Num q] ∧
         (q == arr / duration * (4 # 5) + inject_Z (sp_icol sp))%Q ∧
         ((0 <= arr)%Q → (arr <= duration)%Q →
            (inject_Z (sp_icol sp) <= q)%Q ∧ (q <= inject_Z (sp_icol sp) + (4 # 5))%Q)) ∧
    (npts (sp_trace sp) = 1%nat →
       ∀ x, x ∈ xdata (sp_arrival sp) → ∀ q, x ≠ Num q).
Proof using Hdata Hsynth Hrun.
  intros Hi.
  destruct (drawn_station h st_data st_synth arr_times CC CClim dA dT stf depth
              origin tensor iteration misfit traces synth fig Hdata Hsynth Hrun
              i sp Hi) as (tr & _ & Hsp).
  pose proof (plot_station_Ok _ _ _ _ _ _ _ _ _ _ _ Hsp)
    as (nf0 & cc0 & g0 & conv0 & da0 & dt0 & arr0 & tl0
        & _ & _ & _ & _ & _ & _ & _ & _ & Ht & _).
  simpl in Ht. subst tr. clear nf0 cc0 g0 conv0 da0 dt0 arr0 tl0.
  destruct (station_cell i sp Hi) as (_ & _ & _ & Hxo & _).
  apply plot_station_arrival in Hsp as (arr & Harr & Hd & Hx & Hy).
  exists arr. split; [done|]. split; [done|]. simpl. split.
  - intros HN Hdelta.
    set (duration := (inject_Z (Z.of_nat (npts (sp_trace sp) - 1)) *
                      delta (stats (sp_trace sp)))%Q) in *.
    assert (Hdur : (0 < duration)%Q).
    { apply Qmult_lt_0_compat; [|done].
      change 0%Q with (inject_Z 0). rewrite <- Zlt_Qlt. lia. }
    assert (Hne : ¬ (duration == 0)%Q).
    { intros H0. rewrite H0 in Hdur. by apply Qlt_irrefl in Hdur. }
    rewrite (np_div_nonzero arr duration Hne) in Hx. simpl in Hx.
    eexists. split; [exact Hx|]. rewrite Hxo. split; [reflexivity|].
    intros Ha0 Ha1.
    assert (H0 : (0 <= arr / duration)%Q).
    { apply Qle_shift_div_l; [done|]. by rewrite Qmult_0_l. }
    assert (H1 : (arr / duration <= 1)%Q).
    { apply Qle_shift_div_r; [done|]. by rewrite Qmult_1_l. }
    split; lra.
  - intros HN p Hin q ->. rewrite Hx in Hin. clear Hx.
    set (duration := (inject_Z (Z.of_nat (npts (sp_trace sp) - 1)) *
                      delta (stats (sp_trace sp)))%Q) in *.
    assert (Hz : Qeqb duration 0 = true).
    { apply Qeqb_eq. unfold duration. rewrite HN. simpl. apply Qmult_0_l. }
    assert (Hnum : ∀ q', np_mulq (np_div arr duration) (4 # 5) ≠ Num q').
    { intros q'. unfold np_div. rewrite Hz.
      by destruct (Qeqb arr 0), (Qltb 0 arr). }
    destruct (np_mulq (np_div arr duration) (4 # 5)) as [q'| | |];
      [by destruct (Hnum q')| | |]; simpl in Hin;
      repeat (apply elem_of_cons in Hin as [Hin|Hin]; [discriminate|]);
      by apply elem_of_nil in Hin.
Qed.

(** X20: line style and map marker agree.  A station drawn with solid
    curves appears on the map with marker 'o', one drawn dotted with marker
    'd': for every synthetic trace that carries the station's code, the map
    point (its longitude, latitude and CC value) is in the 'o' layer exactly
    when the curves are solid and in the 'd' layer exactly when they are
    dotted. *)
Theorem X20_style_matches_marker (i : nat) (sp : StationPlot) (s : Trace) :
  wf_stations fig !! i = Some sp →
  s ∈ synth → station_code s = station_code (sp_trace sp) →
  ∃ cc,
    CC !! station_code (sp_trace sp) = Some cc ∧
    (linestyle (l_d sp) = Solid ↔
       marked (wf_map fig) "o" (stlo (stats s), stla (stats s), cc)) ∧
    (linestyle (l_d sp) = Dotted ↔
       marked (wf_map fig) "d" (stlo (stats s), stla (stats s), cc)).
Proof using Hdata Hsynth Hrun.
  intros Hi Hs Hcode.
  destruct (station_facts i sp Hi)
    as (cc & g & conv & _ & _ & Hcc & _ & _ & _ & Hls & Hd & _).
  pose proof Hrun as Hr.
  rewrite (run_eq h st_data st_synth arr_times CC CClim dA dT stf depth origin
             tensor iteration misfit traces synth Hdata Hsynth) in Hr.
  apply render_waveforms_Ok in Hr
    as (sps & lastp & m & ax & _ & _ & _ & Hmap & _ & _ & _ & _ & _ & _ & Hax).
  rewrite <- Hcode in Hcc.
  destruct (plot_map_marked _ _ _ _ _ _ s cc Hmap Hs Hcc) as [Ho Hdm].
  exists cc. rewrite <- Hcode. split; [done|].
  rewrite Hax, Ho, Hdm, Hd. simpl. rewrite Hls.
  destruct (Qltb CClim cc) eqn:E.
  - apply Qltb_lt in E. split; split; try done.
    intros Hle. by apply Qle_not_lt in Hle.
  - apply Qltb_ge in E. split; split; try done.
    intros Hlt. by apply Qle_not_lt in E.
Qed.

End Geometry.

(** *** At the scenario *)

Lemma X16_curves_in_their_cell_witness :
  ∃ fig sp,
    fst (Scenario.run Scenario.store) = Ok fig ∧
    wf_stations fig !! 2%nat = Some sp ∧
    length (xdata (l_s sp)) = length (ydata (l_s sp)).
Proof.
  eexists. eexists. split; [vm_compute; reflexivity|]. name_figure fig.
  split; [reflexivity|].
  match goal with |- context [l_s ?s] => pose (sp := s) end.
  apply (X16_curves_in_their_cell Scenario.store Scenario.st_data Scenario.st_synth
           Scenario.arr_times Scenario.CC Scenario.CClim Scenario.dA Scenario.dT
           Scenario.stf 1000 Scenario.origin Scenario.tensor 3 0
           Edge.three Edge.greens fig eq_refl eq_refl
           ltac:(vm_compute; reflexivity) 2%nat sp (l_s sp) eq_refl).
  right. right. left.
Defined.


Lemma X18_data_curve_inside_axes_witness :
  ∃ fig sp x y,
    fst (Scenario.run Scenario.store) = Ok fig ∧
    wf_stations fig !! 2%nat = Some sp ∧
    xdata (l_d sp) !! 1%nat = Some x ∧ ydata (l_d sp) !! 1%nat = Some y ∧
    point_within (wf_xlim fig) (wf_ylim fig) x y.
Proof.
  eexists. eexists. eexists. eexists.
  split; [vm_compute; reflexivity|]. name_figure fig.
  split; [reflexivity|].
  match goal with |- context [l_d ?s] => pose (sp := s) end.
  split; [reflexivity|]. split; [reflexivity|].
  apply (X18_data_curve_inside_axes Scenario.store Scenario.st_data Scenario.st_synth
           Scenario.arr_times Scenario.CC Scenario.CClim Scenario.dA Scenario.dT
           Scenario.stf 1000 Scenario.origin Scenario.tensor 3 0
           Edge.three Edge.greens fig eq_refl eq_refl
           ltac:(vm_compute; reflexivity) 2%nat 1%nat sp);
    [reflexivity | vm_compute; discriminate | reflexivity | reflexivity].
Defined.

Lemma X19_arrival_mark_witness :
  ∃ fig sp arr,
    fst (Scenario.run Scenario.store) = Ok fig ∧
    wf_stations fig !! 2%nat = Some sp ∧
    Scenario.arr_times !! station_code (sp_trace sp) = Some arr ∧
    ydata (sp_arrival sp) =
      [Num (sp_yoffset sp + (1 # 2)); Num (sp_yoffset sp - (1 # 2))].
Proof.
  eexists. eexists.
  eexists. split; [vm_compute; reflexivity|]. name_figure fig.
  split; [reflexivity|]. name_station sp.
  destruct (X19_arrival_mark Scenario.store Scenario.st_data Scenario.st_synth
              Scenario.arr_times Scenario.CC Scenario.CClim Scenario.dA Scenario.dT
              Scenario.stf 1000 Scenario.origin Scenario.tensor 3 0
              Edge.three Edge.greens fig eq_refl eq_refl
              ltac:(vm_compute; reflexivity) 2%nat sp eq_refl)
    as (arr & Harr & Hy & _).
  vm_compute in Harr. injection Harr as <-.
  split; [vm_compute; reflexivity | exact Hy].
Defined.

Lemma X20_style_matches_marker_witness :
  ∃ fig sp cc,
    fst (Scenario.run Scenario.store) = Ok fig ∧
    wf_stations fig !! 2%nat = Some sp ∧
    Scenario.CC !! station_code (sp_trace sp) = Some cc ∧
    (linestyle (l_d sp) = Solid ↔ marked (wf_map fig) "o" (20%Q, 10%Q, cc)).
Proof.
  eexists. eexists.
  eexists. split; [vm_compute; reflexivity|]. name_figure fig.
  split; [reflexivity|]. name_station sp.
  destruct (X20_style_matches_marker Scenario.store Scenario.st_data Scenario.st_synth
              Scenario.arr_times Scenario.CC Scenario.CClim Scenario.dA Scenario.dT
              Scenario.stf 1000 Scenario.origin Scenario.tensor 3 0
              Edge.three Edge.greens fig eq_refl eq_refl
              ltac:(vm_compute; reflexivity) 2%nat sp Scenario.green_A eq_refl)
    as (cc & Hcc & Hsolid & _).
  - left.
  - reflexivity.
  - vm_compute in Hcc. injection Hcc as <-.
    split; [vm_compute; reflexivity | exact Hsolid].
Defined.


(** ** The axes of the map *)

(** X22: the two axes inside [rect] = (left, bottom, width, height).  The
    map axis is (left, bottom + 0.12 height, width, 0.85 height) and the
    colorbar strip is (left, bottom, width, 0.08 height).  For a
    non-negative height the strip ends (at 8 percent of the height) below
    the start of the map (at 12 percent), the map ends at 97 percent, and
    neither leaves the rectangle.  A [rect] with fewer than four entries
    raises IndexError. *)
Theorem X22_map_axes_stack (left bottom width height : Q) (rest : list Q) :
  (0 <= height)%Q →
  (ortho_axes_rects (left :: bottom :: width :: height :: rest) =
     Ok ([left; bottom + height * (12 # 100); width; height * (85 # 100)],
         [left; bottom; width; height * (8 # 100)])%Q ∧
   (0 <= height * (8 # 100))%Q ∧ (0 <= height * (85 # 100))%Q ∧
   (bottom + height * (8 # 100) <= bottom + height * (12 # 100))%Q ∧
   (bottom + height * (12 # 100) + height * (85 # 100)
      == bottom + height * (97 # 100))%Q ∧
   (bottom + height * (12 # 100) + height * (85 # 100) <= bottom + height)%Q) ∧
  (∀ rect, (length rect < 4)%nat → ortho_axes_rects rect = Raise IndexError).
Proof.
  intros Hh. split.
  - split; [reflexivity|]. repeat split; lra.
  - intros [|a [|b [|c [|d rect]]]] Hlen; simpl in Hlen; try lia; reflexivity.
Qed.

Lemma X22_map_axes_stack_witness :
  ortho_axes_rects [75 # 100; 155 # 1000; 14 # 100; 25 # 100]%Q =
    Ok ([75 # 100; (155 # 1000) + (25 # 100) * (12 # 100); 14 # 100;
         (25 # 100) * (85 # 100)],
        [75 # 100; 155 # 1000; 14 # 100; (25 # 100) * (8 # 100)])%Q ∧
  ((155 # 1000) + (25 # 100) * (8 # 100)
     <= (155 # 1000) + (25 # 100) * (12 # 100))%Q.
Proof.
  destruct (X22_map_axes_stack (75 # 100) (155 # 1000) (14 # 100) (25 # 100) [])
    as [(Hrects & _ & _ & Hbelow & _) _].
  - vm_compute. discriminate.
  - split; [exact Hrects | exact Hbelow].
Defined.
